(** * cdr-ai: the booklet section extractor

    A shallow embedding of
    [app/services/booklet_ocr_service/section_extrator.py], whose one
    function [extract_objects_from_images] runs an object detector over a
    batch of labelled images, crops every detected region and assembles a
    record per image whose shape depends on the image's type key.

    The detector (ultralytics [YOLO]) and the imaging library (PIL) are
    external: they appear here as an environment of fallible operations.
    Python exceptions are values of [exn]; a computation that may raise has
    type [result A]. *)

From Stdlib Require Import ZArith QArith Qabs.
From stdpp Require Import base option list gmap strings.

#[local] Set Warnings "-register-all".
Local Open Scope Z_scope.
Local Open Scope string_scope.
Local Open Scope list_scope.

(** ** Exceptions and fallible computations *)

Inductive exn : Type :=
| IndexError                               (* list index out of range *)
| KeyError (k : Z)                         (* dict lookup of a missing key *)
| ValueError (msg : string)
| OverflowError                            (* int() of an infinite float *)
| FileNotFoundError (path : string)        (* raised by the image loader *)
| UnidentifiedImageError (path : string)   (* raised by the image loader *)
| RuntimeError (msg : string).             (* raised by the detector *)

Inductive result (A : Type) : Type :=
| Ok (a : A)
| Raise (e : exn).

Arguments Ok {A} a.
Arguments Raise {A} e.

#[global] Instance result_ret : MRet result := fun A a => Ok a.
#[global] Instance result_bind : MBind result := fun A B f m =>
  match m with
  | Ok a => f a
  | Raise e => Raise e
  end.

(** [mapM f l] runs [f] over [l] from left to right and stops at the first
    exception. *)
Fixpoint mapM {A B : Type} (f : A -> result B) (l : list A) : result (list B) :=
  match l with
  | [] => Ok []
  | a :: l' => b ← f a; bs ← mapM f l'; Ok (b :: bs)
  end.

(** ** Python values that the function handles *)

(** A Python float: finite floats are (dyadic) rationals. *)
Inductive pyfloat : Type :=
| Finite (q : Q)
| Inf (negative : bool)
| NaN.

(** Rounding toward zero, the rounding of Python's [int] on a float. *)
Definition trunc (q : Q) : Z := Z.quot (Qnum q) (Zpos (Qden q)).

(** [int(x)] for a float [x]. *)
Definition py_int (x : pyfloat) : result Z :=
  match x with
  | Finite q => Ok (trunc q)
  | Inf _ => Raise OverflowError
  | NaN => Raise (ValueError "cannot convert float NaN to integer")
  end.

(** A box as handed to [Image.crop]: [(x1, y1, x2, y2)]. *)
Definition box : Type := Z * Z * Z * Z.

(** Row [i] of a detector result: [boxes.cls[i]] and [boxes.xyxy[i]]. *)
Record row : Type := Row {
  cls : pyfloat;
  xyxy : pyfloat * pyfloat * pyfloat * pyfloat
}.

(** One element [r] of the detector's output; [r.boxes] may be [None]. *)
Record Results : Type := MkResults {
  boxes : option (list row)
}.

(** The values stored in the returned records. A dict literal is the list
    of its entries in the order they are written. *)
Inductive pyval (Image : Type) : Type :=
| PNone
| PStr (s : string)
| PImage (i : Image)
| PDict (d : list (string * pyval Image)).

Arguments PNone {Image}.
Arguments PStr {Image} s.
Arguments PImage {Image} i.
Arguments PDict {Image} d.

(** [d[k]] on a dict value; [None] stands for [KeyError]. *)
Fixpoint assoc {V : Type} (k : string) (d : list (string * V)) : option V :=
  match d with
  | [] => None
  | (k', v) :: d' => if String.eqb k' k then Some v else assoc k d'
  end.

Definition subscript {Image : Type} (v : pyval Image) (k : string) : option (pyval Image) :=
  match v with
  | PDict d => assoc k d
  | _ => None
  end.

Definition keys {Image : Type} (v : pyval Image) : list string :=
  match v with
  | PDict d => d.*1
  | _ => []
  end.

(** ** The external collaborators *)

Record Env (Image Model : Type) : Type := MkEnv {
  (* YOLO(path) *)
  YOLO : string -> result Model;
  (* Image.open(path) *)
  Image_open : string -> result Image;
  (* model(img, conf=..., iou=...) *)
  predict : Model -> Image -> Q -> Q -> result (list Results);
  (* model.names *)
  names : Model -> gmap Z string;
  (* img.crop((x1, y1, x2, y2)) *)
  crop : Image -> box -> result Image
}.

Arguments YOLO {Image Model} _ _.
Arguments Image_open {Image Model} _ _.
Arguments predict {Image Model} _ _ _ _ _.
Arguments names {Image Model} _ _.
Arguments crop {Image Model} _ _ _.

(** ** extract_objects_from_images *)

Section Extractor.
Context {Image Model : Type}.
Variable E : Env Image Model.

Definition model_path : string := "app\ml_models\cdr_book_v2_100_multiple_class.pt".
Definition conf : Q := 0.5%Q.
Definition iou : Q := 0.45%Q.

(** [key, img_path = list(img_dict.items())[0]] *)
Definition first_item (img_dict : list (string * string)) : result (string * string) :=
  match img_dict with
  | [] => Raise IndexError
  | kv :: _ => Ok kv
  end.

(** [cls = int(class_ids[i]); name = model.names[cls]] *)
Definition row_name (model : Model) (r : row) : result string :=
  c ← py_int (cls r);
  match names E model !! c with
  | Some name => Ok name
  | None => Raise (KeyError c)
  end.

(** [x1, y1, x2, y2 = map(int, xyxy[i].tolist())] *)
Definition row_box (r : row) : result box :=
  let '(f1, f2, f3, f4) := xyxy r in
  x1 ← py_int f1;
  y1 ← py_int f2;
  x2 ← py_int f3;
  y2 ← py_int f4;
  Ok (x1, y1, x2, y2).

(** The body of the loop over [range(len(class_ids))], up to the crop. *)
Definition crop_row (model : Model) (img : Image) (r : row) : result (string * Image) :=
  name ← row_name model r;
  b ← row_box r;
  cropped ← crop E img b;
  Ok (name, cropped).

(** [for i in range(len(class_ids)): ...; detections[name] = cropped] *)
Fixpoint reduce_rows (model : Model) (img : Image) (rows : list row)
    (detections : gmap string Image) : result (gmap string Image) :=
  match rows with
  | [] => Ok detections
  | r :: rows' =>
      '(name, cropped) ← crop_row model img r;
      reduce_rows model img rows' (<[name := cropped]> detections)
  end.

(** [if boxes:] holds for a non-empty [Boxes] object. *)
Definition rows_of (r : Results) : list row :=
  match boxes r with
  | Some (x :: l) => x :: l
  | _ => []
  end.

(** [for r in res: ...] *)
Fixpoint reduce_results (model : Model) (img : Image) (res : list Results)
    (detections : gmap string Image) : result (gmap string Image) :=
  match res with
  | [] => Ok detections
  | r :: res' =>
      detections' ← reduce_rows model img (rows_of r) detections;
      reduce_results model img res' detections'
  end.

(** [detections.get(k)] *)
Definition get (detections : gmap string Image) (k : string) : pyval Image :=
  match detections !! k with
  | Some cropped => PImage cropped
  | None => PNone
  end.

(** The [if key == ...: ... elif ...: ... else: raise] at the end of the
    loop body. *)
Definition structure_result (key : string) (detections : gmap string Image)
    : result (pyval Image) :=
  if String.eqb key "outlet_copy" then
    Ok (PDict [("type", PStr "outlet_copy");
               ("data", PDict [("outlet_id", get detections "outlet_id")])])
  else if String.eqb key "partner_copy" then
    let partner_1_data := PDict [
      ("name_1", get detections "name_1");
      ("partner_code_1", get detections "partner_code_1");
      ("age_1", get detections "age_1");
      ("date_1", get detections "date_1");
      ("sign_1", get detections "sign_1");
      ("cheek_mark_1", get detections "cheek_mark_1");
      ("phn_number_1", get detections "phn_number_1")] in
    let partner_2_data := PDict [
      ("name", get detections "name");
      ("partner_code", get detections "partner_code");
      ("age", get detections "age");
      ("date", get detections "date");
      ("sign", get detections "sign");
      ("cheek_mark", get detections "cheek_mark");
      ("phn_number", get detections "phn_number")] in
    Ok (PDict [("type", PStr "partner_copy");
               ("data", PDict [("partner_1", partner_1_data);
                               ("partner_2", partner_2_data)])])
  else
    Raise (ValueError (String.append "Unknown image type: " key)).

(** One turn of [for img_dict in images], up to [results.append]. *)
Definition process_item (model : Model) (img_dict : list (string * string))
    : result (pyval Image) :=
  '(key, img_path) ← first_item img_dict;
  img ← Image_open E img_path;
  res ← predict E model img conf iou;
  detections ← reduce_results model img res ∅;
  structure_result key detections.

(** [for img_dict in images: ...; results.append(result)] and the final
    [return results]. *)
Fixpoint batch_loop (model : Model) (images : list (list (string * string)))
    (results : list (pyval Image)) : result (list (pyval Image)) :=
  match images with
  | [] => Ok results
  | img_dict :: images' =>
      r ← process_item model img_dict;
      batch_loop model images' (results ++ [r])
  end.

Definition extract_objects_from_images (images : list (list (string * string)))
    : result (list (pyval Image)) :=
  model ← YOLO E model_path;
  batch_loop model images [].

End Extractor.

(** ** A concrete environment

    Images are kept symbolically: a loaded file with its pixel size, or the
    crop of an image to a box, so that the box handed to [crop] can be read
    back from the result. *)

Inductive sym_image : Type :=
| Loaded (path : string) (width height : Z)
| Cropped (src : sym_image) (b : box).

Definition width (i : sym_image) : Z :=
  match i with
  | Loaded _ w _ => w
  | Cropped _ (x1, _, x2, _) => x2 - x1
  end.

Definition height (i : sym_image) : Z :=
  match i with
  | Loaded _ _ h => h
  | Cropped _ (_, y1, _, y2) => y2 - y1
  end.

Definition demo_names : gmap Z string :=
  list_to_map [(0, "outlet_id"); (1, "name_1"); (2, "name"); (3, "sign")].

Definition demo_open (path : string) : result sym_image :=
  if String.eqb path "A.jpg" then Ok (Loaded "A.jpg" 100 100)
  else if String.eqb path "B.jpg" then Ok (Loaded "B.jpg" 640 480)
  else if String.eqb path "C.jpg" then Ok (Loaded "C.jpg" 100 100)
  else if String.eqb path "D.jpg" then Ok (Loaded "D.jpg" 200 200)
  else Raise (FileNotFoundError path).

Definition finite_row (c : Z) (x1 y1 x2 y2 : Q) : row :=
  Row (Finite (inject_Z c)) (Finite x1, Finite y1, Finite x2, Finite y2).

Definition demo_predict (_ : unit) (img : sym_image) (_ _ : Q) : result (list Results) :=
  match img with
  | Loaded path _ _ =>
      if String.eqb path "A.jpg" then
        Ok [MkResults (Some [finite_row 0 10 10 50 50])]
      else if String.eqb path "C.jpg" then
        Ok [MkResults (Some [finite_row 0 10.7%Q 10.2%Q 150.9%Q 50.5%Q])]
      else if String.eqb path "D.jpg" then
        Ok [MkResults (Some [finite_row 3 5 5 20 20; finite_row 1 0 0 9 9]);
            MkResults None;
            MkResults (Some [finite_row 3 (-0.5)%Q 30.9%Q 60 40])]
      else Ok [MkResults (Some [])]
  | Cropped _ _ => Ok []
  end.

(** PIL refuses a box whose right edge is left of its left edge, or whose
    lower edge is above its upper edge; any other box is cropped as given. *)
Definition demo_crop (img : sym_image) (b : box) : result sym_image :=
  let '(x1, y1, x2, y2) := b in
  if (x2 <? x1)%Z then Raise (ValueError "Coordinate 'right' is less than 'left'")
  else if (y2 <? y1)%Z then Raise (ValueError "Coordinate 'lower' is less than 'upper'")
  else Ok (Cropped img b).

Definition demoE : Env sym_image unit :=
  {| YOLO := fun _ => Ok tt;
     Image_open := demo_open;
     predict := demo_predict;
     names := fun _ => demo_names;
     crop := demo_crop |}.

(** ** Specification vocabulary *)

(** All rows of a detector output, in the order the two loops visit them. *)
Definition flat_rows (res : list Results) : list row :=
  concat (rows_of <$> res).

(** [detections[name] = cropped] *)
Definition store {Image : Type} (detections : gmap string Image) (nc : string * Image)
    : gmap string Image :=
  <[nc.1 := nc.2]> detections.

(** The crops labelled [name], in detection order. *)
Definition crops_of {Image : Type} (name : string) (ncs : list (string * Image)) : list Image :=
  omap (fun nc => if String.eqb nc.1 name then Some nc.2 else None) ncs.

(** [z] is [q] rounded toward zero: the integer next to [q] on the side of
    zero. *)
Definition toward_zero (q : Q) (z : Z) : Prop :=
  ((0 <= q)%Q -> (inject_Z z <= q)%Q /\ (q < inject_Z (z + 1))%Q) /\
  ((q <= 0)%Q -> (inject_Z (z - 1) < q)%Q /\ (q <= inject_Z z)%Q).

(** The box of the specification's cropper: every coordinate brought into
    the image. *)
Definition spec_clamp_box (w h : Z) (b : box) : box :=
  let '(x1, y1, x2, y2) := b in
  (Z.max 0 (Z.min x1 w), Z.max 0 (Z.min y1 h),
   Z.max 0 (Z.min x2 w), Z.max 0 (Z.min y2 h)).

(** The cropper of the specification: the crop stored for a detection is
    the crop of the clamped box. *)
Definition spec_crops_clamped {Image Model : Type} (E : Env Image Model)
    (w h : Image -> Z) : Prop :=
  forall model img r name c,
    crop_row E model img r = Ok (name, c) ->
    exists b, row_box r = Ok b /\ crop E img (spec_clamp_box (w img) (h img) b) = Ok c.

(** A failure scoped to one item: its image does not open, the detector
    raises on it, or its type key is not one of the two known ones. *)
Inductive item_failure {Image Model : Type} (E : Env Image Model) (model : Model)
    : list (string * string) -> exn -> Prop :=
| decode_failure key path rest e :
    Image_open E path = Raise e ->
    item_failure E model ((key, path) :: rest) e
| detector_failure key path rest img e :
    Image_open E path = Ok img ->
    predict E model img conf iou = Raise e ->
    item_failure E model ((key, path) :: rest) e
| unknown_type key path rest img res detections :
    Image_open E path = Ok img ->
    predict E model img conf iou = Ok res ->
    reduce_results E model img res ∅ = Ok detections ->
    key <> "outlet_copy" ->
    key <> "partner_copy" ->
    item_failure E model ((key, path) :: rest)
      (ValueError (String.append "Unknown image type: " key)).

(** The class labels read for the two partners. *)
Definition partner_1_fields : list string :=
  ["name_1"; "partner_code_1"; "age_1"; "date_1"; "sign_1"; "cheek_mark_1";
   "phn_number_1"].

Definition partner_2_fields : list string :=
  ["name"; "partner_code"; "age"; "date"; "sign"; "cheek_mark"; "phn_number"].

(** A field value: a crop or the absent marker [None]. *)
Definition crop_or_absent {Image : Type} (v : pyval Image) : Prop :=
  v = PNone \/ exists c, v = PImage c.

(** The two shapes of a record. *)
Definition is_outlet_record {Image : Type} (r : pyval Image) : Prop :=
  exists v,
    r = PDict [("type", PStr "outlet_copy"); ("data", PDict [("outlet_id", v)])] /\
    crop_or_absent v.

Definition is_partner_record {Image : Type} (r : pyval Image) : Prop :=
  exists d1 d2,
    r = PDict [("type", PStr "partner_copy");
               ("data", PDict [("partner_1", PDict d1); ("partner_2", PDict d2)])] /\
    d1.*1 = partner_1_fields /\ d2.*1 = partner_2_fields /\
    Forall crop_or_absent d1.*2 /\ Forall crop_or_absent d2.*2.

(** The type key of an item: the key of its first entry. *)
Definition type_tag (img_dict : list (string * string)) : option string :=
  match img_dict with
  | [] => None
  | (key, _) :: _ => Some key
  end.

(** [v[k1][k2]...] *)
Fixpoint lookup_path {Image : Type} (v : pyval Image) (path : list string)
    : option (pyval Image) :=
  match path with
  | [] => Some v
  | k :: path' =>
      match subscript v k with
      | Some v' => lookup_path v' path'
      | None => None
      end
  end.

(** The fields a record of each type is expected to have: where the field
    sits in the record, and its name, which is also the class label it is
    read from. *)
Definition expected_fields (key : string) : list (list string * string) :=
  if String.eqb key "outlet_copy" then [(["data"], "outlet_id")]
  else if String.eqb key "partner_copy" then
    ((fun f => (["data"; "partner_1"], f)) <$> partner_1_fields) ++
    ((fun f => (["data"; "partner_2"], f)) <$> partner_2_fields)
  else [].

(** What a field holds after the crops [ncs] have been stored. *)
Definition field_value {Image : Type} (ncs : list (string * Image)) (f : string)
    : pyval Image :=
  match last (crops_of f ncs) with
  | Some c => PImage c
  | None => PNone
  end.

(** Every way the body of the row loop raises, in the order of its
    statements: [int] of the class id, the lookup of the class id in
    [model.names], [int] of a coordinate, the crop. *)
Inductive row_exception {Image Model : Type} (E : Env Image Model) (model : Model)
    (img : Image) (r : row) : exn -> Prop :=
| class_id_not_finite e :
    py_int (cls r) = Raise e ->
    row_exception E model img r e
| class_id_unknown c :
    py_int (cls r) = Ok c ->
    names E model !! c = None ->
    row_exception E model img r (KeyError c)
| coordinate_not_finite name e :
    row_name E model r = Ok name ->
    row_box r = Raise e ->
    row_exception E model img r e
| crop_raises name b e :
    row_name E model r = Ok name ->
    row_box r = Ok b ->
    crop E img b = Raise e ->
    row_exception E model img r e.

(** Every way one turn of the batch loop raises, in the order of its
    statements. *)
Inductive item_exception {Image Model : Type} (E : Env Image Model) (model : Model)
    : list (string * string) -> exn -> Prop :=
| item_empty :
    item_exception E model [] IndexError
| open_raises key path rest e :
    Image_open E path = Raise e ->
    item_exception E model ((key, path) :: rest) e
| predict_raises key path rest img e :
    Image_open E path = Ok img ->
    predict E model img conf iou = Raise e ->
    item_exception E model ((key, path) :: rest) e
| row_raises key path rest img res pre r post ncs e :
    Image_open E path = Ok img ->
    predict E model img conf iou = Ok res ->
    flat_rows res = pre ++ r :: post ->
    mapM (crop_row E model img) pre = Ok ncs ->
    crop_row E model img r = Raise e ->
    item_exception E model ((key, path) :: rest) e
| key_unknown key path rest img res ncs :
    Image_open E path = Ok img ->
    predict E model img conf iou = Ok res ->
    mapM (crop_row E model img) (flat_rows res) = Ok ncs ->
    key <> "outlet_copy" ->
    key <> "partner_copy" ->
    item_exception E model ((key, path) :: rest)
      (ValueError (String.append "Unknown image type: " key)).

(** ** get_client_ip (app/utils/logger.py) *)

From Stdlib Require Import Ascii.

(** [c.isspace()] for a character below U+0100, which is what the
    characters of a header value are: the ASCII white space, the four
    separators U+001C to U+001F, U+0085 and U+00A0. *)
Definition py_isspace (c : Ascii.ascii) : bool :=
  let n := Ascii.nat_of_ascii c in
  ((9 <=? n) && (n <=? 13) || (28 <=? n) && (n <=? 32) || (n =? 133) || (n =? 160))%nat.

(** [s.lstrip()], [s.rstrip()] and [s.strip()] *)
Fixpoint lstrip (s : string) : string :=
  match s with
  | EmptyString => EmptyString
  | String c s' => if py_isspace c then lstrip s' else s
  end.

Fixpoint rstrip (s : string) : string :=
  match s with
  | EmptyString => EmptyString
  | String c s' =>
      match rstrip s' with
      | EmptyString => if py_isspace c then EmptyString else String c EmptyString
      | t => String c t
      end
  end.

Definition strip (s : string) : string := rstrip (lstrip s).

(** [s.split(",")[0]]: what stands before the first comma. *)
Fixpoint before_comma (s : string) : string :=
  match s with
  | EmptyString => EmptyString
  | String c s' => if Ascii.eqb c ","%char then EmptyString else String c (before_comma s')
  end.

(** What the function reads of Flask's [request]: [request.headers.get]
    and [request.remote_addr]. *)
Record Request : Type := MkRequest {
  headers_get : string -> option string;
  remote_addr : option string
}.

(** The truth value of an optional string: [None] and the empty string are
    false. *)
Definition truthy (o : option string) : bool :=
  match o with
  | Some (String _ _) => true
  | _ => false
  end.

(** [x or "unknown"] *)
Definition or_unknown (o : option string) : string :=
  match o with
  | Some (String c s) => String c s
  | _ => "unknown"
  end.

(** The function. Its argument is the outcome of reaching [request]: an
    exception outside of a request. The [try] catches [RuntimeError]
    only. *)
Definition get_client_ip (request : result Request) : result string :=
  let body :=
    req ← request;
    if truthy (headers_get req "X-Forwarded-For") then
      Ok (strip (before_comma (default EmptyString (headers_get req "X-Forwarded-For"))))
    else if truthy (headers_get req "X-Real-IP") then
      Ok (default EmptyString (headers_get req "X-Real-IP"))
    else
      Ok (or_unknown (remote_addr req)) in
  match body with
  | Raise (RuntimeError _) => Ok "N/A"
  | r => r
  end.

(** The first and the last character of a string are white space. *)
Definition starts_with_space (s : string) : bool :=
  match s with
  | EmptyString => false
  | String c _ => py_isspace c
  end.

Fixpoint ends_with_space (s : string) : bool :=
  match s with
  | EmptyString => false
  | String c EmptyString => py_isspace c
  | String _ s' => ends_with_space s'
  end.

(** Every character of a string is white space. *)
Fixpoint blank (s : string) : bool :=
  match s with
  | EmptyString => true
  | String c s' => py_isspace c && blank s'
  end.

(** ** The function with the state of its collaborators in the open

    The model, the images and the imaging library are objects with a state
    of their own, which a call may read and change: [W] is that state, and
    an operation of a collaborator takes the state it finds to its answer
    and the state it leaves. The function is written once more over such
    operations, statement by statement as above; what it keeps itself, the
    lists [results] and [detections], is made anew in every call and in
    every turn of the loop. *)

Definition st (W A : Type) : Type := W -> result A * W.

#[global] Instance st_ret {W : Type} : MRet (st W) := fun A a w => (Ok a, w).
#[global] Instance st_bind {W : Type} : MBind (st W) := fun A B f m w =>
  match m w with
  | (Ok a, w') => f a w'
  | (Raise e, w') => (Raise e, w')
  end.

(** A step that does not touch the collaborators. *)
Definition st_pure {W A : Type} (r : result A) : st W A := fun w => (r, w).

Record StEnv (W Image Model : Type) : Type := MkStEnv {
  (* YOLO(path) *)
  st_YOLO : string -> st W Model;
  (* Image.open(path) *)
  st_Image_open : string -> st W Image;
  (* model(img, conf=..., iou=...) *)
  st_predict : Model -> Image -> Q -> Q -> st W (list Results);
  (* model.names, read off the model as it is *)
  st_names : Model -> W -> gmap Z string;
  (* img.crop((x1, y1, x2, y2)) *)
  st_crop : Image -> box -> st W Image
}.

Arguments st_YOLO {W Image Model} _ _.
Arguments st_Image_open {W Image Model} _ _.
Arguments st_predict {W Image Model} _ _ _ _ _.
Arguments st_names {W Image Model} _ _ _.
Arguments st_crop {W Image Model} _ _ _.

Section StatefulExtractor.
Context {W Image Model : Type}.
Variable S : StEnv W Image Model.

(** [cls = int(class_ids[i]); name = model.names[cls]] *)
Definition st_row_name (model : Model) (r : row) : st W string :=
  c ← st_pure (py_int (cls r));
  ((fun w =>
      match st_names S model w !! c with
      | Some name => (Ok name, w)
      | None => (Raise (KeyError c), w)
      end) : st W string).

(** The body of the loop over [range(len(class_ids))], up to the crop. *)
Definition st_crop_row (model : Model) (img : Image) (r : row) : st W (string * Image) :=
  name ← st_row_name model r;
  b ← st_pure (row_box r);
  cropped ← st_crop S img b;
  mret (name, cropped).

(** [for i in range(len(class_ids)): ...; detections[name] = cropped] *)
Fixpoint st_reduce_rows (model : Model) (img : Image) (rows : list row)
    (detections : gmap string Image) : st W (gmap string Image) :=
  match rows with
  | [] => mret detections
  | r :: rows' =>
      '(name, cropped) ← st_crop_row model img r;
      st_reduce_rows model img rows' (<[name := cropped]> detections)
  end.

(** [for r in res: ...] *)
Fixpoint st_reduce_results (model : Model) (img : Image) (res : list Results)
    (detections : gmap string Image) : st W (gmap string Image) :=
  match res with
  | [] => mret detections
  | r :: res' =>
      detections' ← st_reduce_rows model img (rows_of r) detections;
      st_reduce_results model img res' detections'
  end.

(** One turn of [for img_dict in images], up to [results.append]. *)
Definition st_process_item (model : Model) (img_dict : list (string * string))
    : st W (pyval Image) :=
  '(key, img_path) ← st_pure (first_item img_dict);
  img ← st_Image_open S img_path;
  res ← st_predict S model img conf iou;
  detections ← st_reduce_results model img res ∅;
  st_pure (structure_result key detections).

(** [for img_dict in images: ...; results.append(result)] and the final
    [return results]. *)
Fixpoint st_batch_loop (model : Model) (images : list (list (string * string)))
    (results : list (pyval Image)) : st W (list (pyval Image)) :=
  match images with
  | [] => mret results
  | img_dict :: images' =>
      r ← st_process_item model img_dict;
      st_batch_loop model images' (results ++ [r])
  end.

Definition st_extract_objects_from_images (images : list (list (string * string)))
    : st W (list (pyval Image)) :=
  model ← st_YOLO S model_path;
  st_batch_loop model images [].

(** The collaborators are deterministic: what an operation answers depends
    on what it is asked, not on the state it is asked in. *)
Definition deterministic_collaborators : Prop :=
  (forall path w w', (st_YOLO S path w).1 = (st_YOLO S path w').1) /\
  (forall path w w', (st_Image_open S path w).1 = (st_Image_open S path w').1) /\
  (forall model img c i w w',
     (st_predict S model img c i w).1 = (st_predict S model img c i w').1) /\
  (forall model w w', st_names S model w = st_names S model w') /\
  (forall img b w w', (st_crop S img b w).1 = (st_crop S img b w').1).

(** The answers of the collaborators in the state [w0]. *)
Definition answers_at (w0 : W) : Env Image Model :=
  {| YOLO := fun path => (st_YOLO S path w0).1;
     Image_open := fun path => (st_Image_open S path w0).1;
     predict := fun model img c i => (st_predict S model img c i w0).1;
     names := fun model => st_names S model w0;
     crop := fun img b => (st_crop S img b w0).1 |}.

End StatefulExtractor.

(** Collaborators that count the calls made to them and answer as [demoE]
    does. *)
Definition demoS : StEnv nat sym_image unit :=
  {| st_YOLO := fun path n => (YOLO demoE path, Datatypes.S n);
     st_Image_open := fun path n => (Image_open demoE path, Datatypes.S n);
     st_predict := fun model img c i n => (predict demoE model img c i, Datatypes.S n);
     st_names := fun model n => names demoE model;
     st_crop := fun img b n => (crop demoE img b, Datatypes.S n) |}.

(** A detector that reports its detection on the first call made to the
    collaborators only. *)
Definition forgetfulS : StEnv nat sym_image unit :=
  {| st_YOLO := fun path n => (YOLO demoE path, n);
     st_Image_open := fun path n => (Image_open demoE path, n);
     st_predict := fun model img c i n =>
       (match n with
        | O => predict demoE model img c i
        | _ => Ok []
        end, Datatypes.S n);
     st_names := fun model n => names demoE model;
     st_crop := fun img b n => (crop demoE img b, n) |}.

(** * Properties *)

(** ** The scenarios of the specification, run *)

Example outlet_scenario :
  extract_objects_from_images demoE [[("outlet_copy", "A.jpg")]] =
  Ok [PDict [("type", PStr "outlet_copy");
             ("data", PDict [("outlet_id",
                PImage (Cropped (Loaded "A.jpg" 100 100) (10, 10, 50, 50)))])]].
Proof. reflexivity. Qed.

Example partner_scenario_no_detections :
  extract_objects_from_images demoE [[("partner_copy", "B.jpg")]] =
  Ok [PDict [("type", PStr "partner_copy");
             ("data", PDict [
                ("partner_1", PDict [
                   ("name_1", PNone); ("partner_code_1", PNone); ("age_1", PNone);
                   ("date_1", PNone); ("sign_1", PNone); ("cheek_mark_1", PNone);
                   ("phn_number_1", PNone)]);
                ("partner_2", PDict [
                   ("name", PNone); ("partner_code", PNone); ("age", PNone);
                   ("date", PNone); ("sign", PNone); ("cheek_mark", PNone);
                   ("phn_number", PNone)])])]].
Proof. reflexivity. Qed.

Example partner_scenario_duplicates :
  (r ← process_item demoE tt [("partner_copy", "D.jpg")];
   Ok (lookup_path r ["data"; "partner_2"; "sign"],
       lookup_path r ["data"; "partner_1"; "name_1"],
       lookup_path r ["data"; "partner_2"; "name"])) =
  Ok (Some (PImage (Cropped (Loaded "D.jpg" 200 200) (0, 30, 60, 40))),
      Some (PImage (Cropped (Loaded "D.jpg" 200 200) (0, 0, 9, 9))),
      Some PNone).
Proof. reflexivity. Qed.

Example int_rounds_toward_zero :
  py_int (Finite (-0.5)%Q) = Ok 0 /\ py_int (Finite 30.9%Q) = Ok 30 /\
  py_int (Finite (-3.7)%Q) = Ok (-3) /\ py_int NaN <> Ok 0.
Proof. repeat split; discriminate. Qed.

Example expected_fields_count :
  length (expected_fields "outlet_copy") = 1%nat /\
  length (expected_fields "partner_copy") = 14%nat /\
  expected_fields "receipt_copy" = [].
Proof. repeat split. Qed.

(** ** The error monad *)

Ltac unbind := unfold mbind, result_bind, mret, result_ret in *.

Lemma bind_Ok {A B : Type} (m : result A) (f : A -> result B) (b : B) :
  m ≫= f = Ok b <-> exists a, m = Ok a /\ f a = Ok b.
Proof.
  unbind. destruct m as [a|e]; split.
  - intros H. exists a. auto.
  - intros (a' & Ha & H). congruence.
  - discriminate.
  - intros (a' & Ha & _). discriminate.
Qed.

Lemma mapM_Forall2 {A B : Type} (f : A -> result B) (l : list A) (bs : list B) :
  mapM f l = Ok bs <-> Forall2 (fun a b => f a = Ok b) l bs.
Proof.
  revert bs. induction l as [|a l IH]; intros bs; simpl.
  - split.
    + intros [= <-]. constructor.
    + intros H. inversion H. reflexivity.
  - rewrite bind_Ok. split.
    + intros (b & Hb & H). apply bind_Ok in H as (bs' & Hbs & [= <-]).
      constructor; [assumption|]. by apply IH.
    + intros H. inversion H as [|? b ? bs' Hb Hbs]; subst.
      exists b. split; [assumption|].
      apply bind_Ok. exists bs'. split; [by apply IH | reflexivity].
Qed.

Lemma mapM_app {A B : Type} (f : A -> result B) (l1 l2 : list A) :
  mapM f (l1 ++ l2) = bs1 ← mapM f l1; bs2 ← mapM f l2; Ok (bs1 ++ bs2).
Proof.
  induction l1 as [|a l1 IH]; simpl.
  - unbind. by destruct (mapM f l2).
  - rewrite IH. unbind.
    destruct (f a); [|reflexivity].
    destruct (mapM f l1); [|reflexivity].
    by destruct (mapM f l2).
Qed.

(** An exception at one element, after a prefix that went through, is the
    outcome of the whole traversal. *)
Lemma mapM_first_Raise {A B : Type} (f : A -> result B) (pre post : list A) (a : A)
    (bs : list B) (e : exn) :
  mapM f pre = Ok bs -> f a = Raise e -> mapM f (pre ++ a :: post) = Raise e.
Proof.
  intros Hpre Ha. rewrite mapM_app, Hpre. simpl. by rewrite Ha.
Qed.

(** ** The loops, as traversals *)

Section Loops.
Context {Image Model : Type}.
Variable E : Env Image Model.

(** The batch loop runs the loop body over the items in order and
    appends each record to the records it already holds. *)
Lemma batch_loop_mapM (model : Model) (images : list (list (string * string)))
    (results : list (pyval Image)) :
  batch_loop E model images results =
  rs ← mapM (process_item E model) images; Ok (results ++ rs).
Proof.
  revert results. induction images as [|d images IH]; intros results; simpl.
  - by rewrite app_nil_r.
  - unbind. destruct (process_item E model d) as [r|e]; [|reflexivity].
    rewrite IH. destruct (mapM (process_item E model) images); [|reflexivity].
    by rewrite <- app_assoc.
Qed.

Lemma extract_mapM (images : list (list (string * string))) :
  extract_objects_from_images E images =
  model ← YOLO E model_path; mapM (process_item E model) images.
Proof.
  unfold extract_objects_from_images. unbind.
  destruct (YOLO E model_path) as [model|e]; [|reflexivity].
  rewrite batch_loop_mapM. unbind.
  by destruct (mapM (process_item E model) images).
Qed.

(** The inner loop crops the rows in order and stores each crop under
    its label. *)
Lemma reduce_rows_mapM (model : Model) (img : Image) (rows : list row)
    (detections : gmap string Image) :
  reduce_rows E model img rows detections =
  ncs ← mapM (crop_row E model img) rows; Ok (foldl store detections ncs).
Proof.
  revert detections. induction rows as [|r rows IH]; intros detections; simpl.
  - reflexivity.
  - unbind. destruct (crop_row E model img r) as [[name c]|e]; [|reflexivity].
    rewrite IH. unbind.
    by destruct (mapM (crop_row E model img) rows).
Qed.

Lemma reduce_rows_app (model : Model) (img : Image) (rows1 rows2 : list row)
    (detections : gmap string Image) :
  reduce_rows E model img (rows1 ++ rows2) detections =
  detections' ← reduce_rows E model img rows1 detections;
  reduce_rows E model img rows2 detections'.
Proof.
  revert detections. induction rows1 as [|r rows1 IH]; intros detections; simpl.
  - reflexivity.
  - unbind. destruct (crop_row E model img r) as [[name c]|e]; [|reflexivity].
    apply IH.
Qed.

(** The two nested loops visit the rows of [flat_rows]. *)
Lemma reduce_results_flat (model : Model) (img : Image) (res : list Results)
    (detections : gmap string Image) :
  reduce_results E model img res detections =
  reduce_rows E model img (flat_rows res) detections.
Proof.
  revert detections. induction res as [|r res IH]; intros detections.
  - reflexivity.
  - change (flat_rows (r :: res)) with (rows_of r ++ flat_rows res).
    rewrite reduce_rows_app. simpl. unbind.
    destruct (reduce_rows E model img (rows_of r) detections); [|reflexivity].
    apply IH.
Qed.

End Loops.

(** Storing crops one after the other leaves, under each label, the last
    crop stored under it. *)
Lemma foldl_store_lookup {Image : Type} (ncs : list (string * Image))
    (detections : gmap string Image) (name : string) :
  foldl store detections ncs !! name =
  match last (crops_of name ncs) with
  | Some c => Some c
  | None => detections !! name
  end.
Proof.
  induction ncs as [|[n c] ncs IH] using rev_ind; [reflexivity|].
  rewrite foldl_app. simpl. unfold store at 1. simpl.
  unfold crops_of. rewrite omap_app. simpl.
  destruct (String.eqb_spec n name) as [->|Hne].
  - rewrite last_snoc. apply lookup_insert_eq.
  - rewrite app_nil_r. rewrite lookup_insert_ne by assumption. apply IH.
Qed.

(** ** Rounding toward zero *)

Lemma trunc_nonneg (q : Q) :
  (0 <= q)%Q -> (inject_Z (trunc q) <= q)%Q /\ (q < inject_Z (trunc q + 1))%Q.
Proof.
  destruct q as [n d]. unfold Qle, Qlt, trunc, inject_Z. simpl.
  intros Hn.
  assert (H0 : 0 <= n) by lia.
  pose proof (Z.mul_quot_le n (Z.pos d) H0 ltac:(lia)).
  pose proof (Z.mul_succ_quot_gt n (Z.pos d) H0 ltac:(lia)).
  lia.
Qed.

Lemma trunc_nonpos (q : Q) :
  (q <= 0)%Q -> (inject_Z (trunc q - 1) < q)%Q /\ (q <= inject_Z (trunc q))%Q.
Proof.
  destruct q as [n d]. unfold Qle, Qlt, trunc, inject_Z. simpl.
  intros Hn.
  assert (H0 : 0 <= - n) by lia.
  pose proof (Z.mul_quot_le (- n) (Z.pos d) H0 ltac:(lia)) as H1.
  pose proof (Z.mul_succ_quot_gt (- n) (Z.pos d) H0 ltac:(lia)) as H2.
  rewrite Z.quot_opp_l in H1, H2 by lia.
  lia.
Qed.

Lemma trunc_toward_zero (q : Q) : toward_zero q (trunc q).
Proof. split; [apply trunc_nonneg | apply trunc_nonpos]. Qed.

Lemma trunc_inject_Z (z : Z) : trunc (inject_Z z) = z.
Proof. unfold trunc. simpl. apply Z.quot_1_r. Qed.

(** ** Cropping *)

Section Cropping.
Context {Image Model : Type}.
Variable E : Env Image Model.

Lemma row_box_finite (r : row) (q1 q2 q3 q4 : Q) :
  xyxy r = (Finite q1, Finite q2, Finite q3, Finite q4) ->
  row_box r = Ok (trunc q1, trunc q2, trunc q3, trunc q4).
Proof. unfold row_box. intros ->. reflexivity. Qed.

Lemma crop_row_eq (model : Model) (img : Image) (r : row) (name : string) (b : box) :
  row_name E model r = Ok name ->
  row_box r = Ok b ->
  crop_row E model img r = c ← crop E img b; Ok (name, c).
Proof. unfold crop_row. intros -> ->. reflexivity. Qed.

Lemma process_item_eq (model : Model) (key path : string)
    (rest : list (string * string)) (img : Image) (res : list Results) :
  Image_open E path = Ok img ->
  predict E model img conf iou = Ok res ->
  process_item E model ((key, path) :: rest) =
  detections ← reduce_rows E model img (flat_rows res) ∅;
  structure_result key detections.
Proof.
  intros Hopen Hres. unfold process_item. simpl.
  rewrite Hopen. simpl. rewrite Hres. simpl.
  by rewrite reduce_results_flat.
Qed.

End Cropping.


(** ** Detections and crops *)

(** C10: the four coordinates the detector reports for a detection are
    rounded toward zero by [int] before the crop is taken, so the crop of a
    detection is the imaging library's crop of the box of rounded
    coordinates, not of the detector's fractional box. *)
Theorem box_truncated_before_crop {Image Model : Type} (E : Env Image Model)
    (model : Model) (img : Image) (r : row) (name : string) (q1 q2 q3 q4 : Q) :
  row_name E model r = Ok name ->
  xyxy r = (Finite q1, Finite q2, Finite q3, Finite q4) ->
  crop_row E model img r =
    (c ← crop E img (trunc q1, trunc q2, trunc q3, trunc q4); Ok (name, c)) /\
  toward_zero q1 (trunc q1) /\ toward_zero q2 (trunc q2) /\
  toward_zero q3 (trunc q3) /\ toward_zero q4 (trunc q4).
Proof.
  intros Hname Hbox. split.
  - apply crop_row_eq; [assumption|]. by apply row_box_finite.
  - split; [|split; [|split]]; apply trunc_toward_zero.
Qed.

Lemma box_truncated_before_crop_witness :
  crop_row demoE tt (Loaded "D.jpg" 200 200) (finite_row 3 (-0.5)%Q 30.9%Q 60 40) =
  Ok ("sign", Cropped (Loaded "D.jpg" 200 200) (0, 30, 60, 40)).
Proof.
  exact (proj1 (box_truncated_before_crop demoE tt (Loaded "D.jpg" 200 200)
                  (finite_row 3 (-0.5)%Q 30.9%Q 60 40) "sign"
                  (-0.5)%Q 30.9%Q 60 40 eq_refl eq_refl)).
Defined.


(** C3: when the rows of a detector output are cropped in the order the
    loops visit them, the mapping built keeps under each class label the
    crop of the last row carrying that label, and nothing under a label no
    row carries; of two detections of one class the second one's crop is
    the entry. *)
Theorem last_detection_wins {Image Model : Type} (E : Env Image Model)
    (model : Model) (img : Image) :
  (forall (res : list Results) (ncs : list (string * Image)),
     mapM (crop_row E model img) (flat_rows res) = Ok ncs ->
     exists m, reduce_results E model img res ∅ = Ok m /\
               forall name, m !! name = last (crops_of name ncs)) /\
  (forall (r1 r2 : row) (a : string) (c1 c2 : Image),
     crop_row E model img r1 = Ok (a, c1) ->
     crop_row E model img r2 = Ok (a, c2) ->
     reduce_results E model img [MkResults (Some [r1; r2])] ∅ = Ok {[a := c2]}).
Proof.
  split.
  - intros res ncs Hncs.
    exists (foldl store ∅ ncs). split.
    + rewrite reduce_results_flat, reduce_rows_mapM, Hncs. reflexivity.
    + intros name. rewrite foldl_store_lookup, lookup_empty.
      by destruct (last (crops_of name ncs)).
  - intros r1 r2 a c1 c2 H1 H2. simpl. rewrite H1. simpl. rewrite H2. simpl.
    f_equal. apply insert_insert_eq.
Qed.

Lemma last_detection_wins_witness :
  exists m,
    reduce_results demoE tt (Loaded "D.jpg" 200 200)
      [MkResults (Some [finite_row 3 5 5 20 20; finite_row 1 0 0 9 9]);
       MkResults None;
       MkResults (Some [finite_row 3 (-0.5)%Q 30.9%Q 60 40])] ∅ = Ok m /\
    forall name,
      m !! name =
      last (crops_of name
              [("sign", Cropped (Loaded "D.jpg" 200 200) (5, 5, 20, 20));
               ("name_1", Cropped (Loaded "D.jpg" 200 200) (0, 0, 9, 9));
               ("sign", Cropped (Loaded "D.jpg" 200 200) (0, 30, 60, 40))]).
Proof.
  exact (proj1 (last_detection_wins demoE tt (Loaded "D.jpg" 200 200))
           [MkResults (Some [finite_row 3 5 5 20 20; finite_row 1 0 0 9 9]);
            MkResults None;
            MkResults (Some [finite_row 3 (-0.5)%Q 30.9%Q 60 40])]
           [("sign", Cropped (Loaded "D.jpg" 200 200) (5, 5, 20, 20));
            ("name_1", Cropped (Loaded "D.jpg" 200 200) (0, 0, 9, 9));
            ("sign", Cropped (Loaded "D.jpg" 200 200) (0, 30, 60, 40))]
           eq_refl).
Defined.

(** ** The batch *)

Section Batch.
Context {Image Model : Type}.
Variable E : Env Image Model.

(** The call returns exactly when the model loads and every item goes
    through, and then with the items' records in the items' order. *)
Lemma extract_Ok_iff (images : list (list (string * string))) (rs : list (pyval Image)) :
  extract_objects_from_images E images = Ok rs <->
  exists model, YOLO E model_path = Ok model /\
                Forall2 (fun d r => process_item E model d = Ok r) images rs.
Proof.
  rewrite extract_mapM, bind_Ok.
  split; intros (model & Hm & H); exists model; (split; [assumption|]);
    by apply mapM_Forall2.
Qed.

Lemma extract_first_Raise (model : Model) (pre post : list (list (string * string)))
    (d : list (string * string)) (rs : list (pyval Image)) (e : exn) :
  YOLO E model_path = Ok model ->
  Forall2 (fun d r => process_item E model d = Ok r) pre rs ->
  process_item E model d = Raise e ->
  extract_objects_from_images E (pre ++ d :: post) = Raise e.
Proof.
  intros Hm Hpre Hd. rewrite extract_mapM, Hm. simpl.
  apply (mapM_first_Raise _ pre post d rs e); [|assumption].
  by apply mapM_Forall2.
Qed.

Lemma structure_result_unknown (key : string) (detections : gmap string Image) :
  key <> "outlet_copy" -> key <> "partner_copy" ->
  structure_result key detections =
  Raise (ValueError (String.append "Unknown image type: " key)).
Proof.
  intros H1 H2. unfold structure_result.
  apply String.eqb_neq in H1, H2. by rewrite H1, H2.
Qed.

Lemma item_failure_Raise (model : Model) (d : list (string * string)) (e : exn) :
  item_failure E model d e -> process_item E model d = Raise e.
Proof.
  intros H. destruct H as [key path rest e Hopen
                          |key path rest img e Hopen Hres
                          |key path rest img res dets Hopen Hres Hred H1 H2];
    unfold process_item; simpl; rewrite Hopen; simpl.
  - reflexivity.
  - rewrite Hres. reflexivity.
  - rewrite Hres. simpl. rewrite Hred. simpl.
    by apply structure_result_unknown.
Qed.

End Batch.

(** C1, as the code has it: a failure scoped to one item is not caught.
    When the model loads and the items before the failing one go through,
    the call raises the failing item's exception, and so returns a record
    for no item at all. *)
Theorem item_failure_aborts_batch {Image Model : Type} (E : Env Image Model)
    (model : Model) (pre post : list (list (string * string)))
    (d : list (string * string)) (rs : list (pyval Image)) (e : exn) :
  YOLO E model_path = Ok model ->
  Forall2 (fun d r => process_item E model d = Ok r) pre rs ->
  item_failure E model d e ->
  extract_objects_from_images E (pre ++ d :: post) = Raise e.
Proof.
  intros Hm Hpre Hd.
  apply (extract_first_Raise E model pre post d rs e Hm Hpre).
  by apply item_failure_Raise.
Qed.

Lemma item_failure_aborts_batch_witness :
  extract_objects_from_images demoE
    ([[("outlet_copy", "A.jpg")]] ++ [("partner_copy", "missing.jpg")]
       :: [[("outlet_copy", "C.jpg")]]) =
  Raise (FileNotFoundError "missing.jpg").
Proof.
  refine (item_failure_aborts_batch demoE tt [[("outlet_copy", "A.jpg")]]
            [[("outlet_copy", "C.jpg")]] [("partner_copy", "missing.jpg")]
            [PDict [("type", PStr "outlet_copy");
                    ("data", PDict [("outlet_id",
                       PImage (Cropped (Loaded "A.jpg" 100 100) (10, 10, 50, 50)))])]]
            (FileNotFoundError "missing.jpg") eq_refl _ _).
  - constructor; [reflexivity | constructor].
  - apply decode_failure. reflexivity.
Defined.

(** C1, as the specification words it, fails: in a batch of three items
    whose second image does not exist, the first and third items go through
    on their own, the second fails on its own, and the call returns no
    list of records: it raises. *)
Lemma item_failure_not_recorded :
  let batch := [[("outlet_copy", "A.jpg")]; [("partner_copy", "missing.jpg")];
                [("outlet_copy", "C.jpg")]] in
  (exists r1, process_item demoE tt [("outlet_copy", "A.jpg")] = Ok r1) /\
  (exists r3, process_item demoE tt [("outlet_copy", "C.jpg")] = Ok r3) /\
  item_failure demoE tt [("partner_copy", "missing.jpg")]
    (FileNotFoundError "missing.jpg") /\
  ~ exists rs, extract_objects_from_images demoE batch = Ok rs.
Proof.
  simpl. split; [eexists; reflexivity|]. split; [eexists; reflexivity|].
  split; [apply decode_failure; reflexivity|].
  intros [rs H]. vm_compute in H. discriminate H.
Qed.

(** C2, as the code has it: whenever the call returns, it returns as many
    records as there are items, and the record at each index is the record
    of the item at that index, computed from that item alone. *)
Theorem results_index_aligned {Image Model : Type} (E : Env Image Model)
    (images : list (list (string * string))) (rs : list (pyval Image)) :
  extract_objects_from_images E images = Ok rs ->
  length rs = length images /\
  exists model, YOLO E model_path = Ok model /\
    forall i d, images !! i = Some d ->
      exists r, rs !! i = Some r /\ process_item E model d = Ok r.
Proof.
  intros H. apply extract_Ok_iff in H as (model & Hm & H).
  split; [symmetry; by eapply Forall2_length|].
  exists model. split; [assumption|].
  intros i d Hd.
  destruct (Forall2_lookup_l _ _ _ _ _ H Hd) as (r & Hr & Hdr).
  exists r. by split.
Qed.

Lemma results_index_aligned_witness :
  let rs := [PDict [("type", PStr "outlet_copy");
                 ("data", PDict [("outlet_id",
                    PImage (Cropped (Loaded "A.jpg" 100 100) (10, 10, 50, 50)))])];
          PDict [("type", PStr "outlet_copy");
                 ("data", PDict [("outlet_id",
                    PImage (Cropped (Loaded "C.jpg" 100 100) (10, 10, 150, 50)))])]] in
  let images := [[("outlet_copy", "A.jpg")]; [("outlet_copy", "C.jpg")]] in
  extract_objects_from_images demoE images = Ok rs /\
  length rs = length images /\
  exists model, YOLO demoE model_path = Ok model /\
    forall i d, images !! i = Some d ->
      exists r, rs !! i = Some r /\ process_item demoE model d = Ok r.
Proof.
  intros rs images. split; [reflexivity|].
  apply (results_index_aligned demoE images rs). reflexivity.
Defined.

(** C2, as the specification words it, fails: for a batch of one item
    whose type key is not a known one no list of one record is returned. *)
Lemma unknown_key_no_records :
  ~ exists rs,
      extract_objects_from_images demoE [[("receipt_copy", "A.jpg")]] = Ok rs /\
      length rs = 1%nat.
Proof. intros (rs & H & _). vm_compute in H. discriminate H. Qed.

(** C5, as the code has it: for a type key that is neither of the two
    known ones the last step of the loop body raises [ValueError] with the
    key in its message, whatever was detected; when the model loads, the
    items before go through and the item's image is opened and cropped
    without an exception, this [ValueError] is the outcome of the whole
    call. *)
Theorem unknown_type_raises_ValueError {Image Model : Type} (E : Env Image Model)
    (key : string) :
  key <> "outlet_copy" -> key <> "partner_copy" ->
  (forall detections : gmap string Image,
     structure_result key detections =
     Raise (ValueError (String.append "Unknown image type: " key))) /\
  (forall (model : Model) (pre post : list (list (string * string)))
          (rs : list (pyval Image)) (path : string) (rest : list (string * string))
          (img : Image) (res : list Results) (detections : gmap string Image),
     YOLO E model_path = Ok model ->
     Forall2 (fun d r => process_item E model d = Ok r) pre rs ->
     Image_open E path = Ok img ->
     predict E model img conf iou = Ok res ->
     reduce_results E model img res ∅ = Ok detections ->
     extract_objects_from_images E (pre ++ ((key, path) :: rest) :: post) =
     Raise (ValueError (String.append "Unknown image type: " key))).
Proof.
  intros H1 H2. split.
  - intros detections. by apply structure_result_unknown.
  - intros model pre post rs path rest img res detections Hm Hpre Hopen Hres Hred.
    apply (extract_first_Raise E model pre post _ rs _ Hm Hpre).
    unfold process_item. simpl. rewrite Hopen. simpl. rewrite Hres. simpl.
    rewrite Hred. simpl. by apply structure_result_unknown.
Qed.

Lemma unknown_type_raises_ValueError_witness :
  extract_objects_from_images demoE
    ([[("outlet_copy", "A.jpg")]] ++ [("invoice", "B.jpg"); ("outlet_copy", "A.jpg")]
       :: [[("partner_copy", "B.jpg")]]) =
  Raise (ValueError "Unknown image type: invoice").
Proof.
  refine (proj2 (unknown_type_raises_ValueError demoE "invoice" _ _)
            tt [[("outlet_copy", "A.jpg")]] [[("partner_copy", "B.jpg")]]
            [PDict [("type", PStr "outlet_copy");
                    ("data", PDict [("outlet_id",
                       PImage (Cropped (Loaded "A.jpg" 100 100) (10, 10, 50, 50)))])]]
            "B.jpg" [("outlet_copy", "A.jpg")] (Loaded "B.jpg" 640 480)
            [MkResults (Some [])] ∅ eq_refl _ eq_refl eq_refl eq_refl).
  - discriminate.
  - discriminate.
  - constructor; [reflexivity | constructor].
Defined.

(** C5, as the specification words it, fails: an item with an unknown type
    key after an item that goes through makes the whole call raise, and the
    first item's record is not returned. *)
Lemma unknown_type_aborts_batch :
  (exists r, process_item demoE tt [("outlet_copy", "A.jpg")] = Ok r) /\
  extract_objects_from_images demoE
    [[("outlet_copy", "A.jpg")]; [("invoice", "B.jpg")]] =
  Raise (ValueError "Unknown image type: invoice") /\
  ~ exists rs, extract_objects_from_images demoE
                 [[("outlet_copy", "A.jpg")]; [("invoice", "B.jpg")]] = Ok rs.
Proof.
  split; [eexists; reflexivity|]. split; [reflexivity|].
  intros [rs H]. vm_compute in H. discriminate H.
Qed.

(** ** The shape of the records *)

Section Records.
Context {Image Model : Type}.
Variable E : Env Image Model.

Lemma get_crop_or_absent (detections : gmap string Image) (k : string) :
  crop_or_absent (get detections k).
Proof.
  unfold crop_or_absent, get. destruct (detections !! k) as [c|]; eauto.
Qed.

Lemma structure_result_outlet (detections : gmap string Image) :
  exists r, structure_result "outlet_copy" detections = Ok r /\ is_outlet_record r.
Proof.
  eexists. split; [reflexivity|].
  eexists. split; [reflexivity|]. apply get_crop_or_absent.
Qed.

Lemma structure_result_partner (detections : gmap string Image) :
  exists r, structure_result "partner_copy" detections = Ok r /\ is_partner_record r.
Proof.
  eexists. split; [reflexivity|].
  eexists _, _. split; [reflexivity|].
  split; [reflexivity|]. split; [reflexivity|].
  split; simpl; repeat (constructor; [apply get_crop_or_absent|]); constructor.
Qed.

(** A record comes from one of the two known keys, and has its shape. *)
Lemma structure_result_Ok (key : string) (detections : gmap string Image)
    (r : pyval Image) :
  structure_result key detections = Ok r ->
  (key = "outlet_copy" /\ is_outlet_record r) \/
  (key = "partner_copy" /\ is_partner_record r).
Proof.
  unfold structure_result.
  destruct (String.eqb_spec key "outlet_copy") as [->|H1].
  - intros H. left. split; [reflexivity|].
    destruct (structure_result_outlet detections) as (r' & Hr' & Hrec).
    unfold structure_result in Hr'. simpl in Hr'. congruence.
  - destruct (String.eqb_spec key "partner_copy") as [->|H2]; [|discriminate].
    intros H. right. split; [reflexivity|].
    destruct (structure_result_partner detections) as (r' & Hr' & Hrec).
    unfold structure_result in Hr'. simpl in Hr'. congruence.
Qed.

Lemma process_item_Ok (model : Model) (d : list (string * string)) (r : pyval Image) :
  process_item E model d = Ok r ->
  (type_tag d = Some "outlet_copy" /\ is_outlet_record r) \/
  (type_tag d = Some "partner_copy" /\ is_partner_record r).
Proof.
  unfold process_item. destruct d as [|[key path] rest]; [discriminate|].
  simpl. intros H.
  apply bind_Ok in H as (img & _ & H).
  apply bind_Ok in H as (res & _ & H).
  apply bind_Ok in H as (dets & _ & H).
  apply structure_result_Ok in H as [[-> H]|[-> H]]; [left|right]; by split.
Qed.

(** Every expected field of a record is one of its keys, and holds what
    [detections.get] gives for its class label. *)
Lemma structure_result_fields (key : string) (detections : gmap string Image)
    (r : pyval Image) :
  structure_result key detections = Ok r ->
  Forall (fun pf => lookup_path r (pf.1 ++ [pf.2]) = Some (get detections pf.2))
         (expected_fields key).
Proof.
  unfold structure_result, expected_fields.
  destruct (String.eqb key "outlet_copy").
  - intros [= <-]. repeat constructor.
  - destruct (String.eqb key "partner_copy"); [|discriminate].
    intros [= <-]. repeat constructor.
Qed.

End Records.

(** C4: the shape of a record is fixed by the type key of its item. For
    the key [outlet_copy] the last step of the loop body gives, whatever
    was detected, an outlet record, whose data has the one key
    [outlet_id]; for [partner_copy] a partner record, whose data has the
    keys [partner_1] and [partner_2], the first with the seven suffixed
    fields and the second with the seven unsuffixed ones. No record has
    both shapes, and in the list a call returns each record has the shape
    of its item's key. *)
Theorem schema_determined_by_tag {Image Model : Type} (E : Env Image Model) :
  (forall detections : gmap string Image,
     exists r, structure_result "outlet_copy" detections = Ok r /\
               is_outlet_record r /\
               keys r = ["type"; "data"] /\
               (keys <$> subscript r "data") = Some ["outlet_id"]) /\
  (forall detections : gmap string Image,
     exists r data, structure_result "partner_copy" detections = Ok r /\
               is_partner_record r /\
               keys r = ["type"; "data"] /\
               subscript r "data" = Some data /\
               keys data = ["partner_1"; "partner_2"] /\
               (keys <$> subscript data "partner_1") = Some partner_1_fields /\
               (keys <$> subscript data "partner_2") = Some partner_2_fields) /\
  (forall r : pyval Image, is_outlet_record r -> ~ is_partner_record r) /\
  (forall images rs,
     extract_objects_from_images E images = Ok rs ->
     Forall2 (fun d r =>
                (type_tag d = Some "outlet_copy" /\ is_outlet_record r) \/
                (type_tag d = Some "partner_copy" /\ is_partner_record r))
             images rs).
Proof.
  split; [|split; [|split]].
  - intros detections.
    destruct (structure_result_outlet detections) as (r & Hr & Hrec).
    exists r. split; [assumption|]. split; [assumption|].
    injection Hr as <-. by split.
  - intros detections.
    destruct (structure_result_partner detections) as (r & Hr & Hrec).
    injection Hr as Hr. eexists r, _. split; [by rewrite <- Hr|].
    split; [assumption|]. rewrite <- Hr. repeat split.
  - intros r (v & -> & _) (d1 & d2 & H & _). discriminate H.
  - intros images rs H. apply extract_Ok_iff in H as (model & _ & H).
    eapply Forall2_impl; [exact H|].
    intros d r Hdr. exact (process_item_Ok E model d r Hdr).
Qed.

Lemma schema_determined_by_tag_witness :
  let images := [[("outlet_copy", "A.jpg")]; [("partner_copy", "B.jpg")]] in
  exists rs,
    extract_objects_from_images demoE images = Ok rs /\
    Forall2 (fun d r =>
               (type_tag d = Some "outlet_copy" /\ is_outlet_record r) \/
               (type_tag d = Some "partner_copy" /\ is_partner_record r))
            images rs.
Proof.
  intros images. eexists. split; [reflexivity|].
  apply (proj2 (proj2 (proj2 (schema_determined_by_tag demoE))) images).
  reflexivity.
Defined.

(** C7: every expected field of a record is present as a key. Whatever
    was detected, the last step of the loop body gives for a known type
    key a record, without an exception, in which each expected field
    holds what [detections.get] gives for its class label, the absent
    marker [None] when the label is not in the mapping. So when the image
    opens, the detector answers and every detection is cropped, the item's
    record holds in each expected field the last crop detected under the
    field's label, and [None] when no detection carries it; an
    [outlet_copy] item without a detection labelled [outlet_id] gets the
    record whose [outlet_id] is [None]. *)
Theorem absent_field_is_None {Image Model : Type} (E : Env Image Model) :
  (forall (key : string) (detections : gmap string Image),
     key = "outlet_copy" \/ key = "partner_copy" ->
     exists r,
       structure_result key detections = Ok r /\
       Forall (fun pf =>
                 lookup_path r (pf.1 ++ [pf.2]) = Some (get detections pf.2) /\
                 (detections !! pf.2 = None ->
                  lookup_path r (pf.1 ++ [pf.2]) = Some PNone))
              (expected_fields key)) /\
  (forall (model : Model) (key path : string) (rest : list (string * string))
          (img : Image) (res : list Results) (ncs : list (string * Image)),
     Image_open E path = Ok img ->
     predict E model img conf iou = Ok res ->
     mapM (crop_row E model img) (flat_rows res) = Ok ncs ->
     key = "outlet_copy" \/ key = "partner_copy" ->
     exists r,
       process_item E model ((key, path) :: rest) = Ok r /\
       Forall (fun pf =>
                 lookup_path r (pf.1 ++ [pf.2]) = Some (field_value ncs pf.2) /\
                 (crops_of pf.2 ncs = [] ->
                  lookup_path r (pf.1 ++ [pf.2]) = Some PNone))
              (expected_fields key) /\
       (key = "outlet_copy" -> crops_of "outlet_id" ncs = [] ->
        r = PDict [("type", PStr "outlet_copy");
                   ("data", PDict [("outlet_id", PNone)])])).
Proof.
  assert (Hstep : forall (key : string) (detections : gmap string Image),
             key = "outlet_copy" \/ key = "partner_copy" ->
             exists r, structure_result key detections = Ok r).
  { intros key detections [-> | ->]; eexists; reflexivity. }
  split.
  - intros key detections Hkey.
    destruct (Hstep key detections Hkey) as [r Hr].
    exists r. split; [assumption|].
    pose proof (structure_result_fields key _ r Hr) as Hf.
    eapply Forall_impl; [exact Hf|].
    intros [p f]. simpl. intros Hp. split; [assumption|].
    intros Hnone. rewrite Hp. unfold get. by rewrite Hnone.
  - intros model key path rest img res ncs Hopen Hres Hncs Hkey.
    rewrite (process_item_eq E model key path rest img res Hopen Hres).
    rewrite reduce_rows_mapM, Hncs. simpl.
    assert (Hget : forall f, get (foldl store ∅ ncs) f = field_value ncs f).
    { intros f. unfold get, field_value.
      rewrite foldl_store_lookup, lookup_empty.
      by destruct (last (crops_of f ncs)). }
    destruct (Hstep key (foldl store ∅ ncs) Hkey) as [r Hr].
    exists r. split; [assumption|]. split.
    + pose proof (structure_result_fields key _ r Hr) as Hf.
      eapply Forall_impl; [exact Hf|].
      intros [p f]. simpl. rewrite Hget. intros Hp. split; [assumption|].
      intros Hnone. rewrite Hp. unfold field_value. by rewrite Hnone.
    + intros -> Hnone. injection Hr as <-.
      rewrite Hget. unfold field_value. by rewrite Hnone.
Qed.

Lemma absent_field_is_None_witness :
  let ncs := [("sign", Cropped (Loaded "D.jpg" 200 200) (5, 5, 20, 20));
              ("name_1", Cropped (Loaded "D.jpg" 200 200) (0, 0, 9, 9));
              ("sign", Cropped (Loaded "D.jpg" 200 200) (0, 30, 60, 40))] in
  exists r,
    process_item demoE tt [("outlet_copy", "D.jpg")] = Ok r /\
    Forall (fun pf =>
              lookup_path r (pf.1 ++ [pf.2]) = Some (field_value ncs pf.2) /\
              (crops_of pf.2 ncs = [] ->
               lookup_path r (pf.1 ++ [pf.2]) = Some PNone))
           (expected_fields "outlet_copy") /\
    ("outlet_copy" = "outlet_copy" -> crops_of "outlet_id" ncs = [] ->
     r = PDict [("type", PStr "outlet_copy"); ("data", PDict [("outlet_id", PNone)])]).
Proof.
  intros ncs.
  refine (proj2 (absent_field_is_None demoE) tt "outlet_copy" "D.jpg" []
            (Loaded "D.jpg" 200 200) _ ncs eq_refl eq_refl eq_refl _).
  left. reflexivity.
Defined.



(** ** Dependence on the collaborators only *)

Section Stateful.
Context {W Image Model : Type}.
Variable S : StEnv W Image Model.
Hypothesis Hdet : deterministic_collaborators S.
Variable w0 : W.

(** When both steps answer alike in every state, so does their sequence. *)
Lemma st_bind_answer {A B : Type} (m : st W A) (f : A -> st W B)
    (r : result A) (g : A -> result B) :
  (forall w, (m w).1 = r) ->
  (forall a w, (f a w).1 = g a) ->
  forall w, ((m ≫= f) w).1 = r ≫= g.
Proof.
  intros Hm Hf w. unfold mbind at 1, st_bind. specialize (Hm w).
  destruct (m w) as [[a|e] w']; simpl in Hm; subst r; simpl; [apply Hf | reflexivity].
Qed.

Lemma st_pure_answer {A : Type} (r : result A) (w : W) : (st_pure r w).1 = r.
Proof. reflexivity. Qed.

Lemma st_crop_row_answer (model : Model) (img : Image) (r : row) (w : W) :
  (st_crop_row S model img r w).1 = crop_row (answers_at S w0) model img r.
Proof.
  destruct Hdet as (_ & _ & _ & Hnames & Hcrop).
  revert w. unfold st_crop_row, crop_row.
  apply st_bind_answer.
  - unfold st_row_name, row_name. apply st_bind_answer; [apply st_pure_answer|].
    intros c w. simpl. rewrite (Hnames model w w0).
    by destruct (st_names S model w0 !! c).
  - intros name. apply st_bind_answer; [apply st_pure_answer|].
    intros b. apply st_bind_answer; [intros w; apply Hcrop | reflexivity].
Qed.

Lemma st_reduce_rows_answer (model : Model) (img : Image) (rows : list row)
    (detections : gmap string Image) (w : W) :
  (st_reduce_rows S model img rows detections w).1 =
  reduce_rows (answers_at S w0) model img rows detections.
Proof.
  revert detections w. induction rows as [|r rows IH]; intros detections.
  - reflexivity.
  - simpl. apply st_bind_answer; [apply st_crop_row_answer|].
    intros [name c]. apply IH.
Qed.

Lemma st_reduce_results_answer (model : Model) (img : Image) (res : list Results)
    (detections : gmap string Image) (w : W) :
  (st_reduce_results S model img res detections w).1 =
  reduce_results (answers_at S w0) model img res detections.
Proof.
  revert detections w. induction res as [|r res IH]; intros detections.
  - reflexivity.
  - simpl. apply st_bind_answer; [apply st_reduce_rows_answer | apply IH].
Qed.

Lemma st_process_item_answer (model : Model) (d : list (string * string)) (w : W) :
  (st_process_item S model d w).1 = process_item (answers_at S w0) model d.
Proof.
  destruct Hdet as (_ & Hopen & Hpredict & _ & _).
  revert w. unfold st_process_item, process_item.
  apply st_bind_answer; [apply st_pure_answer|].
  intros [key path].
  apply st_bind_answer; [intros w; apply Hopen|].
  intros img. apply st_bind_answer; [intros w; apply Hpredict|].
  intros res. apply st_bind_answer; [apply st_reduce_results_answer|].
  intros detections w. reflexivity.
Qed.

Lemma st_batch_loop_answer (model : Model) (images : list (list (string * string)))
    (results : list (pyval Image)) (w : W) :
  (st_batch_loop S model images results w).1 =
  batch_loop (answers_at S w0) model images results.
Proof.
  revert results w. induction images as [|d images IH]; intros results.
  - reflexivity.
  - simpl. apply st_bind_answer; [apply st_process_item_answer|].
    intros r. apply IH.
Qed.

Lemma st_extract_answer (images : list (list (string * string))) (w : W) :
  (st_extract_objects_from_images S images w).1 =
  extract_objects_from_images (answers_at S w0) images.
Proof.
  destruct Hdet as (Hyolo & _).
  revert w. unfold st_extract_objects_from_images, extract_objects_from_images.
  apply st_bind_answer; [intros w; apply Hyolo|].
  intros model. apply st_batch_loop_answer.
Qed.

End Stateful.



(** With a detector whose answer depends on its state the second of two
    invocations in a row gives another record than the first. *)
Example state_dependent_detector_differs :
  let images := [[("outlet_copy", "A.jpg")]] in
  let first := st_extract_objects_from_images forgetfulS images 0%nat in
  let second := st_extract_objects_from_images forgetfulS images first.2 in
  first.1 =
    Ok [PDict [("type", PStr "outlet_copy");
               ("data", PDict [("outlet_id",
                  PImage (Cropped (Loaded "A.jpg" 100 100) (10, 10, 50, 50)))])]] /\
  second.1 =
    Ok [PDict [("type", PStr "outlet_copy"); ("data", PDict [("outlet_id", PNone)])]] /\
  ~ deterministic_collaborators forgetfulS.
Proof.
  simpl. split; [reflexivity|]. split; [reflexivity|].
  intros (_ & _ & H & _).
  specialize (H tt (Loaded "A.jpg" 100 100) conf iou 0%nat 1%nat). discriminate H.
Qed.

(** ** The first entry of an item *)

(** C9: of an item's dictionary the first entry is read, and only it.
    The key of the first entry is the type key the record is built for and
    its value is the path of the image that is opened, handed to the
    detector and cropped; the outcome for an item is the outcome for the
    item cut down to its first entry, and so is the outcome of a call. An
    empty item raises [IndexError], and, when the model loads and the
    items before it go through, so does the call, which returns no
    record. *)
Theorem only_first_entry_consumed {Image Model : Type} (E : Env Image Model) :
  (forall model key path rest,
     process_item E model ((key, path) :: rest) =
     (img ← Image_open E path;
      res ← predict E model img conf iou;
      detections ← reduce_results E model img res ∅;
      structure_result key detections)) /\
  (forall model key path rest r,
     process_item E model ((key, path) :: rest) = Ok r ->
     lookup_path r ["type"] = Some (PStr key) /\
     exists img, Image_open E path = Ok img) /\
  (forall model kv rest,
     process_item E model (kv :: rest) = process_item E model [kv]) /\
  (forall images,
     extract_objects_from_images E images =
     extract_objects_from_images E (take 1 <$> images)) /\
  (forall model, process_item E model [] = Raise IndexError) /\
  (forall model pre post rs,
     YOLO E model_path = Ok model ->
     Forall2 (fun d r => process_item E model d = Ok r) pre rs ->
     extract_objects_from_images E (pre ++ [] :: post) = Raise IndexError).
Proof.
  split; [|split; [|split; [|split; [|split]]]].
  - reflexivity.
  - intros model key path rest r H.
    unfold process_item in H. simpl in H.
    apply bind_Ok in H as (img & Hopen & H).
    apply bind_Ok in H as (res & _ & H).
    apply bind_Ok in H as (detections & _ & H).
    split; [|by exists img].
    unfold structure_result in H.
    destruct (String.eqb_spec key "outlet_copy") as [->|_].
    { by injection H as <-. }
    destruct (String.eqb_spec key "partner_copy") as [->|_]; [|discriminate].
    by injection H as <-.
  - reflexivity.
  - intros images. rewrite !extract_mapM. unbind.
    destruct (YOLO E model_path) as [model|]; [|reflexivity].
    induction images as [|d images IH]; [reflexivity|].
    simpl. rewrite IH. by destruct d.
  - reflexivity.
  - intros model pre post rs Hm Hpre.
    by apply (extract_first_Raise E model pre post [] rs IndexError).
Qed.

Lemma only_first_entry_consumed_witness :
  extract_objects_from_images demoE
    ([[("outlet_copy", "A.jpg"); ("partner_copy", "B.jpg")]] ++ []
       :: [[("outlet_copy", "C.jpg")]]) = Raise IndexError.
Proof.
  refine (proj2 (proj2 (proj2 (proj2 (proj2 (only_first_entry_consumed demoE))))) tt
            [[("outlet_copy", "A.jpg"); ("partner_copy", "B.jpg")]]
            [[("outlet_copy", "C.jpg")]]
            [PDict [("type", PStr "outlet_copy");
                    ("data", PDict [("outlet_id",
                       PImage (Cropped (Loaded "A.jpg" 100 100) (10, 10, 50, 50)))])]]
            eq_refl _).
  constructor; [reflexivity | constructor].
Defined.

Example first_entry_decides :
  process_item demoE tt [("partner_copy", "B.jpg"); ("outlet_copy", "A.jpg")] =
  process_item demoE tt [("partner_copy", "B.jpg")] /\
  (r ← process_item demoE tt [("partner_copy", "B.jpg"); ("outlet_copy", "A.jpg")];
   Ok (lookup_path r ["type"])) = Ok (Some (PStr "partner_copy")).
Proof. split; reflexivity. Qed.

(** * Further properties of the extractor *)

(** ** Splitting and joining batches *)

Lemma mapM_Raise_inv {A B : Type} (f : A -> result B) (l : list A) (e : exn) :
  mapM f l = Raise e ->
  exists pre a post bs,
    l = pre ++ a :: post /\ mapM f pre = Ok bs /\ f a = Raise e.
Proof.
  induction l as [|a l IH]; simpl; [discriminate|].
  destruct (f a) as [b|e'] eqn:Ha; simpl.
  - destruct (mapM f l) as [bs|e''] eqn:Hl; simpl; [discriminate|].
    intros [= ->].
    destruct (IH eq_refl) as (pre & a' & post & bs' & -> & Hpre & Ha').
    exists (a :: pre), a', post, (b :: bs'). simpl.
    rewrite Ha, Hpre. by repeat split.
  - intros [= ->]. exists [], a, l, []. by repeat split.
Qed.

(** X1: a call on two batches put end to end has the outcome of the call
    on the first batch followed by the call on the second: the two lists
    of records put end to end, or the first exception met in that order. *)
Theorem extract_app {Image Model : Type} (E : Env Image Model)
    (xs ys : list (list (string * string))) :
  extract_objects_from_images E (xs ++ ys) =
  (rs1 ← extract_objects_from_images E xs;
   rs2 ← extract_objects_from_images E ys;
   Ok (rs1 ++ rs2)).
Proof.
  rewrite !extract_mapM.
  destruct (YOLO E model_path) as [model|e]; [|reflexivity].
  simpl. rewrite mapM_app. unbind.
  destruct (mapM (process_item E model) xs); reflexivity.
Qed.

(** X2: the call raises in two ways only: the model does not load, or
    the model loads, the items before some item go through, and that item
    raises; the exception is then the one of the model loader, or of that
    first failing item, whatever the items after it are. *)
Theorem extract_Raise_iff {Image Model : Type} (E : Env Image Model)
    (images : list (list (string * string))) (e : exn) :
  extract_objects_from_images E images = Raise e <->
  YOLO E model_path = Raise e \/
  exists model pre d post rs,
    YOLO E model_path = Ok model /\
    images = pre ++ d :: post /\
    Forall2 (fun d r => process_item E model d = Ok r) pre rs /\
    process_item E model d = Raise e.
Proof.
  rewrite extract_mapM. split.
  - destruct (YOLO E model_path) as [model|e'] eqn:Hm; simpl.
    + intros H. right.
      apply mapM_Raise_inv in H as (pre & d & post & rs & -> & Hpre & Hd).
      exists model, pre, d, post, rs. repeat split; try assumption.
      by apply mapM_Forall2.
    + intros [= ->]. by left.
  - intros [Hm | (model & pre & d & post & rs & Hm & -> & Hpre & Hd)];
      rewrite Hm; simpl; [reflexivity|].
    apply (mapM_first_Raise _ pre post d rs e); [|assumption].
    by apply mapM_Forall2.
Qed.

(** ** The exceptions of a row and of an item *)

(** X3: cropping a detection raises exactly in the four ways of
    [row_exception], tried in this order: the class id is not a finite
    number; the class id is not a key of [model.names], which raises
    [KeyError] of the class id before any coordinate is looked at; a
    coordinate is not a finite number; the imaging library raises on the
    box. *)
Theorem crop_row_Raise_iff {Image Model : Type} (E : Env Image Model)
    (model : Model) (img : Image) (r : row) (e : exn) :
  crop_row E model img r = Raise e <-> row_exception E model img r e.
Proof.
  unfold crop_row. split.
  - unfold row_name.
    destruct (py_int (cls r)) as [c|e1] eqn:Hc; simpl.
    + destruct (names E model !! c) as [name|] eqn:Hn; simpl.
      * destruct (row_box r) as [b|e2] eqn:Hb; simpl.
        -- destruct (crop E img b) as [cropped|e3] eqn:Hcrop; simpl; [discriminate|].
           intros [= ->]. apply (crop_raises E model img r name b); try assumption.
           unfold row_name. rewrite Hc. simpl. by rewrite Hn.
        -- intros [= ->]. apply (coordinate_not_finite E model img r name); [|assumption].
           unfold row_name. rewrite Hc. simpl. by rewrite Hn.
      * intros [= <-]. by apply class_id_unknown.
    + intros [= ->]. by apply class_id_not_finite.
  - intros [e' Hc | c Hc Hn | name e' Hname Hb | name b e' Hname Hb Hcrop].
    + unfold row_name. rewrite Hc. reflexivity.
    + unfold row_name. rewrite Hc. simpl. rewrite Hn. reflexivity.
    + rewrite Hname. simpl. rewrite Hb. reflexivity.
    + rewrite Hname. simpl. rewrite Hb. simpl. rewrite Hcrop. reflexivity.
Qed.

(** X4: one turn of the batch loop raises exactly in the five ways of
    [item_exception], tried in this order: the item is empty; the image
    does not open; the detector raises; a detection, after the detections
    before it have been cropped, raises; everything went through and the
    type key is unknown. In particular the type key is looked at last. *)
Theorem process_item_Raise_iff {Image Model : Type} (E : Env Image Model)
    (model : Model) (d : list (string * string)) (e : exn) :
  process_item E model d = Raise e <-> item_exception E model d e.
Proof.
  split.
  - destruct d as [|[key path] rest].
    { intros [= <-]. constructor. }
    unfold process_item. simpl.
    destruct (Image_open E path) as [img|e1] eqn:Hopen; simpl.
    2:{ intros [= ->]. by apply open_raises. }
    destruct (predict E model img conf iou) as [res|e2] eqn:Hres; simpl.
    2:{ intros [= ->]. by eapply predict_raises. }
    rewrite reduce_results_flat, reduce_rows_mapM.
    destruct (mapM (crop_row E model img) (flat_rows res)) as [ncs|e3] eqn:Hrows; simpl.
    + unfold structure_result.
      destruct (String.eqb_spec key "outlet_copy") as [->|H1]; [discriminate|].
      destruct (String.eqb_spec key "partner_copy") as [->|H2]; [discriminate|].
      intros [= <-]. by eapply key_unknown.
    + intros [= ->].
      apply mapM_Raise_inv in Hrows as (pre & r & post & ncs & Hflat & Hpre & Hr).
      eapply row_raises; eassumption.
  - intros [ | key path rest e' Hopen
             | key path rest img e' Hopen Hres
             | key path rest img res pre r post ncs e' Hopen Hres Hflat Hpre Hr
             | key path rest img res ncs Hopen Hres Hrows H1 H2].
    + reflexivity.
    + unfold process_item. simpl. by rewrite Hopen.
    + unfold process_item. simpl. rewrite Hopen. simpl. by rewrite Hres.
    + rewrite (process_item_eq E model key path rest img res Hopen Hres).
      rewrite reduce_rows_mapM, Hflat.
      by rewrite (mapM_first_Raise _ pre post r ncs e' Hpre Hr).
    + rewrite (process_item_eq E model key path rest img res Hopen Hres).
      rewrite reduce_rows_mapM, Hrows. simpl.
      by apply structure_result_unknown.
Qed.

(** ** What a record depends on *)

Lemma structure_result_ext {Image : Type} (key : string)
    (d1 d2 : gmap string Image) :
  (forall pf, pf ∈ expected_fields key -> d1 !! pf.2 = d2 !! pf.2) ->
  structure_result key d1 = structure_result key d2.
Proof.
  intros H.
  assert (HF : Forall (fun pf => get d1 pf.2 = get d2 pf.2) (expected_fields key)).
  { apply Forall_forall. intros pf Hpf. unfold get. by rewrite (H pf Hpf). }
  unfold structure_result, expected_fields in *.
  destruct (String.eqb key "outlet_copy").
  - apply Forall_cons in HF as [H1 _]. simpl in H1. by rewrite H1.
  - destruct (String.eqb key "partner_copy"); [|reflexivity].
    simpl in HF.
    repeat (apply Forall_cons in HF as [? HF]). simpl in *. congruence.
Qed.

Lemma reduce_results_Ok {Image Model : Type} (E : Env Image Model) (model : Model)
    (img : Image) (res : list Results) (ncs : list (string * Image)) :
  mapM (crop_row E model img) (flat_rows res) = Ok ncs ->
  reduce_results E model img res ∅ = Ok (foldl store ∅ ncs).
Proof.
  intros H. by rewrite reduce_results_flat, reduce_rows_mapM, H.
Qed.

Lemma foldl_store_empty_lookup {Image : Type} (ncs : list (string * Image))
    (name : string) :
  foldl store ∅ ncs !! name = last (crops_of name ncs).
Proof.
  rewrite foldl_store_lookup, lookup_empty. by destruct (last (crops_of name ncs)).
Qed.

(** X5: the record of an item is read from the detections of its expected
    class labels only. Two detector outputs on one image whose detections
    are all cropped, and in which the last crop under each expected label
    of the type key is the same, give the same record: detections under
    any other label, and earlier detections under an expected one, leave
    no trace in it. *)
Theorem record_reads_expected_labels_only {Image Model : Type} (E : Env Image Model)
    (model : Model) (img : Image) (key : string) (res1 res2 : list Results)
    (ncs1 ncs2 : list (string * Image)) :
  mapM (crop_row E model img) (flat_rows res1) = Ok ncs1 ->
  mapM (crop_row E model img) (flat_rows res2) = Ok ncs2 ->
  (forall pf, pf ∈ expected_fields key ->
     last (crops_of pf.2 ncs1) = last (crops_of pf.2 ncs2)) ->
  (reduce_results E model img res1 ∅ ≫= structure_result key) =
  (reduce_results E model img res2 ∅ ≫= structure_result key).
Proof.
  intros H1 H2 Hlast.
  rewrite (reduce_results_Ok E model img res1 ncs1 H1).
  rewrite (reduce_results_Ok E model img res2 ncs2 H2). simpl.
  apply structure_result_ext. intros pf Hpf.
  rewrite !foldl_store_empty_lookup. by apply Hlast.
Qed.

Lemma record_reads_expected_labels_only_witness :
  let img := Loaded "D.jpg" 200 200 in
  let res1 := [MkResults (Some [finite_row 3 5 5 20 20; finite_row 1 0 0 9 9]);
               MkResults None;
               MkResults (Some [finite_row 3 (-0.5)%Q 30.9%Q 60 40])] in
  let res2 := [MkResults (Some [finite_row 0 1 1 2 2; finite_row 3 (-0.5)%Q 30.9%Q 60 40;
                                finite_row 1 0 0 9 9])] in
  (reduce_results demoE tt img res1 ∅ ≫= structure_result "partner_copy") =
  (reduce_results demoE tt img res2 ∅ ≫= structure_result "partner_copy").
Proof.
  intros img res1 res2.
  refine (record_reads_expected_labels_only demoE tt img "partner_copy" res1 res2
            _ _ eq_refl eq_refl _).
  apply Forall_forall. simpl. repeat constructor.
Defined.

Lemma last_elem_of {A : Type} (l : list A) (x : A) : last l = Some x -> x ∈ l.
Proof.
  intros H. apply last_Some in H as [l' ->]. apply elem_of_app. right. by left.
Qed.

Lemma crops_of_elem_of {Image : Type} (name : string) (ncs : list (string * Image))
    (c : Image) :
  c ∈ crops_of name ncs -> (name, c) ∈ ncs.
Proof.
  unfold crops_of. rewrite list_elem_of_omap.
  intros ([n c'] & Hin & H). simpl in H.
  destruct (String.eqb_spec n name) as [->|]; [|discriminate].
  by injection H as ->.
Qed.

Lemma crop_row_Ok {Image Model : Type} (E : Env Image Model) (model : Model)
    (img : Image) (r : row) (name : string) (c : Image) :
  crop_row E model img r = Ok (name, c) <->
  exists b, row_name E model r = Ok name /\ row_box r = Ok b /\ crop E img b = Ok c.
Proof.
  unfold crop_row. split.
  - intros H. apply bind_Ok in H as (name' & Hname & H).
    apply bind_Ok in H as (b & Hb & H).
    apply bind_Ok in H as (c' & Hc & H).
    injection H as -> ->. by exists b.
  - intros (b & -> & -> & Hc). simpl. by rewrite Hc.
Qed.

(** X6: every crop in the record of an item is a crop of the item's own
    image at a detection the detector reported for it, and sits in the
    field named after that detection's class label: no field holds a crop
    of another class or of a box that was not detected. *)
Theorem record_crops_come_from_detections {Image Model : Type} (E : Env Image Model)
    (model : Model) (key path : string) (rest : list (string * string))
    (img : Image) (res : list Results) (r : pyval Image)
    (pf : list string * string) (c : Image) :
  Image_open E path = Ok img ->
  predict E model img conf iou = Ok res ->
  process_item E model ((key, path) :: rest) = Ok r ->
  pf ∈ expected_fields key ->
  lookup_path r (pf.1 ++ [pf.2]) = Some (PImage c) ->
  exists (rw : row) (b : box),
    rw ∈ flat_rows res /\
    row_name E model rw = Ok pf.2 /\
    row_box rw = Ok b /\
    crop E img b = Ok c.
Proof.
  intros Hopen Hres Hitem Hpf Hfield.
  rewrite (process_item_eq E model key path rest img res Hopen Hres) in Hitem.
  rewrite reduce_rows_mapM in Hitem.
  apply bind_Ok in Hitem as (m & Hm & Hr).
  apply bind_Ok in Hm as (ncs & Hncs & [= <-]).
  pose proof (structure_result_fields key _ r Hr) as HF.
  rewrite Forall_forall in HF. specialize (HF pf Hpf).
  rewrite Hfield in HF. injection HF as HF.
  unfold get in HF. rewrite foldl_store_empty_lookup in HF.
  destruct (last (crops_of pf.2 ncs)) as [c'|] eqn:Hlast; [|discriminate].
  injection HF as ->.
  apply last_elem_of, crops_of_elem_of in Hlast.
  apply mapM_Forall2 in Hncs.
  apply list_elem_of_lookup_1 in Hlast as [i Hi].
  destruct (Forall2_lookup_r _ _ _ _ _ Hncs Hi) as (rw & Hrw & Hcrop).
  apply list_elem_of_lookup_2 in Hrw.
  apply crop_row_Ok in Hcrop as (b & Hname & Hb & Hc).
  by exists rw, b.
Qed.

Lemma record_crops_come_from_detections_witness :
  exists (rw : row) (b : box),
    rw ∈ flat_rows [MkResults (Some [finite_row 3 5 5 20 20; finite_row 1 0 0 9 9]);
                    MkResults None;
                    MkResults (Some [finite_row 3 (-0.5)%Q 30.9%Q 60 40])] /\
    row_name demoE tt rw = Ok "sign" /\
    row_box rw = Ok b /\
    crop demoE (Loaded "D.jpg" 200 200) b =
      Ok (Cropped (Loaded "D.jpg" 200 200) (0, 30, 60, 40)).
Proof.
  refine (record_crops_come_from_detections demoE tt "partner_copy" "D.jpg" []
            (Loaded "D.jpg" 200 200) _ _ (["data"; "partner_2"], "sign") _
            eq_refl eq_refl eq_refl _ eq_refl).
  simpl. repeat constructor.
Defined.

(** ** The mapping from class labels to crops *)

(** X7: the order of detections matters among detections of one class
    only. Swapping two neighbouring detections of different classes that
    are both cropped without an exception does not change the outcome of
    the two loops, however the rows are spread over the detector's result
    objects. *)
Theorem detections_order_across_classes {Image Model : Type} (E : Env Image Model)
    (model : Model) (img : Image) (res res' : list Results)
    (pre post : list row) (r1 r2 : row) (n1 n2 : string) (c1 c2 : Image)
    (detections : gmap string Image) :
  flat_rows res = pre ++ r1 :: r2 :: post ->
  flat_rows res' = pre ++ r2 :: r1 :: post ->
  crop_row E model img r1 = Ok (n1, c1) ->
  crop_row E model img r2 = Ok (n2, c2) ->
  n1 <> n2 ->
  reduce_results E model img res detections =
  reduce_results E model img res' detections.
Proof.
  intros Hres Hres' H1 H2 Hne.
  rewrite !reduce_results_flat, Hres, Hres', !reduce_rows_app.
  destruct (reduce_rows E model img pre detections) as [m|e]; [|reflexivity].
  cbn [reduce_rows mbind result_bind]. rewrite H1, H2.
  cbn [reduce_rows mbind result_bind].
  f_equal. by apply insert_insert_ne.
Qed.

Lemma detections_order_across_classes_witness :
  let img := Loaded "D.jpg" 200 200 in
  reduce_results demoE tt img
    [MkResults (Some [finite_row 3 5 5 20 20; finite_row 1 0 0 9 9]);
     MkResults None;
     MkResults (Some [finite_row 3 (-0.5)%Q 30.9%Q 60 40])] ∅ =
  reduce_results demoE tt img
    [MkResults (Some [finite_row 3 5 5 20 20]);
     MkResults (Some [finite_row 3 (-0.5)%Q 30.9%Q 60 40; finite_row 1 0 0 9 9])] ∅.
Proof.
  intros img.
  refine (detections_order_across_classes demoE tt img
            [MkResults (Some [finite_row 3 5 5 20 20; finite_row 1 0 0 9 9]);
             MkResults None;
             MkResults (Some [finite_row 3 (-0.5)%Q 30.9%Q 60 40])]
            [MkResults (Some [finite_row 3 5 5 20 20]);
             MkResults (Some [finite_row 3 (-0.5)%Q 30.9%Q 60 40; finite_row 1 0 0 9 9])]
            [finite_row 3 5 5 20 20] [] (finite_row 1 0 0 9 9)
            (finite_row 3 (-0.5)%Q 30.9%Q 60 40)
            "name_1" "sign" (Cropped img (0, 0, 9, 9)) (Cropped img (0, 30, 60, 40))
            ∅ eq_refl eq_refl eq_refl eq_refl _).
  discriminate.
Defined.

Lemma foldl_store_size {Image : Type} (ncs : list (string * Image))
    (detections : gmap string Image) :
  (size (foldl store detections ncs) <= size detections + length ncs)%nat.
Proof.
  revert detections. induction ncs as [|[n c] ncs IH]; intros detections; simpl.
  - lia.
  - etrans; [apply IH|]. unfold store. simpl. rewrite map_size_insert.
    destruct (detections !! n); simpl; lia.
Qed.

Lemma crops_of_last_is_Some {Image : Type} (name : string) (ncs : list (string * Image)) :
  is_Some (last (crops_of name ncs)) <-> exists c, (name, c) ∈ ncs.
Proof.
  split.
  - intros [c Hc]. exists c. by apply crops_of_elem_of, last_elem_of.
  - intros [c Hc].
    assert (Hin : c ∈ crops_of name ncs).
    { unfold crops_of. apply list_elem_of_omap. exists (name, c).
      split; [assumption|]. simpl. by rewrite String.eqb_refl. }
    destruct (crops_of name ncs) as [|x l] using rev_ind.
    + by apply elem_of_nil in Hin.
    + rewrite last_snoc. eauto.
Qed.

(** X8: when the two loops go through, the mapping they build has an
    entry for a label exactly when some detection carries that label:
    every key is a class name of [model.names], no label that was detected
    is missing, and there are at most as many entries as detections. *)
Theorem detections_keys {Image Model : Type} (E : Env Image Model)
    (model : Model) (img : Image) (res : list Results)
    (detections : gmap string Image) :
  reduce_results E model img res ∅ = Ok detections ->
  (forall name,
     is_Some (detections !! name) <->
     exists rw, rw ∈ flat_rows res /\ row_name E model rw = Ok name) /\
  (forall name, is_Some (detections !! name) ->
     exists c, names E model !! c = Some name) /\
  (size detections <= length (flat_rows res))%nat.
Proof.
  intros H. rewrite reduce_results_flat, reduce_rows_mapM in H.
  apply bind_Ok in H as (ncs & Hncs & [= <-]).
  pose proof (proj1 (mapM_Forall2 _ _ _) Hncs) as HF.
  assert (Hkeys : forall name,
             is_Some (foldl store ∅ ncs !! name) <->
             exists rw, rw ∈ flat_rows res /\ row_name E model rw = Ok name).
  { intros name. rewrite foldl_store_empty_lookup, crops_of_last_is_Some. split.
    - intros [c Hc]. apply list_elem_of_lookup_1 in Hc as [i Hi].
      destruct (Forall2_lookup_r _ _ _ _ _ HF Hi) as (rw & Hrw & Hcrop).
      apply crop_row_Ok in Hcrop as (b & Hname & _).
      exists rw. split; [by eapply list_elem_of_lookup_2 | assumption].
    - intros (rw & Hrw & Hname). apply list_elem_of_lookup_1 in Hrw as [i Hi].
      destruct (Forall2_lookup_l _ _ _ _ _ HF Hi) as ([n c] & Hnc & Hcrop).
      pose proof Hcrop as Hcrop'.
      apply crop_row_Ok in Hcrop' as (b & Hname' & _).
      assert (n = name) as -> by congruence.
      exists c. by eapply list_elem_of_lookup_2. }
  split; [exact Hkeys|]. split.
  - intros name Hsome. apply Hkeys in Hsome as (rw & _ & Hname).
    unfold row_name in Hname. apply bind_Ok in Hname as (c & _ & Hname).
    exists c. destruct (names E model !! c); congruence.
  - pose proof (foldl_store_size ncs ∅) as Hsize.
    rewrite map_size_empty in Hsize.
    rewrite (Forall2_length _ _ _ HF). simpl in Hsize. lia.
Qed.

Lemma detections_keys_witness :
  let res := [MkResults (Some [finite_row 3 5 5 20 20; finite_row 1 0 0 9 9]);
              MkResults None;
              MkResults (Some [finite_row 3 (-0.5)%Q 30.9%Q 60 40])] in
  exists detections : gmap string sym_image,
    reduce_results demoE tt (Loaded "D.jpg" 200 200) res ∅ = Ok detections /\
    (size detections <= length (flat_rows res))%nat.
Proof.
  intros res. eexists. split; [reflexivity|].
  apply (detections_keys demoE tt (Loaded "D.jpg" 200 200) res). reflexivity.
Defined.

(** ** The type key and the image *)

(** X9: an exception of an item with a known type key does not come from
    the key: the same image path under any other key, known or not, and
    with any further entries, raises the same exception. And the two known
    keys go through on the same images: an item with one of them gets a
    record exactly when the item with the other one does. *)
Theorem failure_independent_of_key {Image Model : Type} (E : Env Image Model)
    (model : Model) (k1 path : string) (rest1 : list (string * string)) :
  k1 = "outlet_copy" \/ k1 = "partner_copy" ->
  (forall e k2 rest2,
     process_item E model ((k1, path) :: rest1) = Raise e ->
     process_item E model ((k2, path) :: rest2) = Raise e) /\
  (forall k2 rest2,
     k2 = "outlet_copy" \/ k2 = "partner_copy" ->
     (exists r, process_item E model ((k1, path) :: rest1) = Ok r) ->
     exists r, process_item E model ((k2, path) :: rest2) = Ok r).
Proof.
  intros Hk1. unfold process_item. simpl.
  destruct (Image_open E path) as [img|e1]; simpl.
  2:{ split; [intros; assumption | intros ? ? ? [r H]; discriminate]. }
  destruct (predict E model img conf iou) as [res|e2]; simpl.
  2:{ split; [intros; assumption | intros ? ? ? [r H]; discriminate]. }
  destruct (reduce_results E model img res ∅) as [m|e3]; simpl.
  2:{ split; [intros; assumption | intros ? ? ? [r H]; discriminate]. }
  split.
  - intros e k2 rest2 H. destruct Hk1 as [-> | ->]; discriminate.
  - intros k2 rest2 [-> | ->] _; eexists; reflexivity.
Qed.

Lemma failure_independent_of_key_witness :
  process_item demoE tt [("invoice", "missing.jpg"); ("outlet_copy", "A.jpg")] =
  Raise (FileNotFoundError "missing.jpg").
Proof.
  refine (proj1 (failure_independent_of_key demoE tt "partner_copy" "missing.jpg" [] _)
            (FileNotFoundError "missing.jpg") "invoice" [("outlet_copy", "A.jpg")]
            eq_refl).
  right. reflexivity.
Defined.

(** ** The integer box of a detection *)

Lemma trunc_mono (p q : Q) : (p <= q)%Q -> trunc p <= trunc q.
Proof.
  destruct p as [n1 d1], q as [n2 d2]. unfold Qle, trunc. simpl. intros H.
  rewrite <- (Z.quot_mul_cancel_r n1 (Z.pos d1) (Z.pos d2)) by lia.
  rewrite <- (Z.quot_mul_cancel_r n2 (Z.pos d2) (Z.pos d1)) by lia.
  rewrite (Z.mul_comm (Z.pos d2) (Z.pos d1)).
  apply Z.quot_le_mono; lia.
Qed.

Lemma trunc_zero : trunc 0 = 0.
Proof. reflexivity. Qed.

(** X10: rounding keeps a box in shape. For a detection with finite
    coordinates whose left edge is not right of its right edge and whose
    upper edge is not below its lower edge, the integer box handed to the
    crop has the same property, so it is never a box with its edges in
    the wrong order; and a detection without negative coordinates gets a
    box without negative coordinates. The box may be empty: the two edges
    of a detection narrower than a pixel can round to the same integer. *)
Theorem row_box_well_formed (r : row) (q1 q2 q3 q4 : Q) :
  xyxy r = (Finite q1, Finite q2, Finite q3, Finite q4) ->
  (q1 <= q3)%Q -> (q2 <= q4)%Q ->
  exists x1 y1 x2 y2,
    row_box r = Ok (x1, y1, x2, y2) /\
    x1 <= x2 /\ y1 <= y2 /\
    ((0 <= q1)%Q -> (0 <= q2)%Q -> 0 <= x1 /\ 0 <= y1).
Proof.
  intros Hr H13 H24.
  exists (trunc q1), (trunc q2), (trunc q3), (trunc q4).
  split; [by apply row_box_finite|].
  split; [by apply trunc_mono|]. split; [by apply trunc_mono|].
  intros H1 H2. rewrite <- trunc_zero. split; by apply trunc_mono.
Qed.

Lemma row_box_well_formed_witness :
  exists x1 y1 x2 y2,
    row_box (finite_row 0 10.2%Q 7 10.9%Q 30.5%Q) = Ok (x1, y1, x2, y2) /\
    x1 <= x2 /\ y1 <= y2 /\
    ((0 <= 10.2)%Q -> (0 <= 7)%Q -> 0 <= x1 /\ 0 <= y1).
Proof.
  apply (row_box_well_formed (finite_row 0 10.2%Q 7 10.9%Q 30.5%Q)
           10.2%Q 7 10.9%Q 30.5%Q eq_refl); discriminate.
Defined.

Example thin_detection_empty_box :
  row_box (finite_row 0 10.2%Q 7 10.9%Q 30.5%Q) = Ok (10, 7, 10, 30).
Proof. reflexivity. Qed.

(** * The client address of a request *)

Lemma lstrip_starts (s : string) : starts_with_space (lstrip s) = false.
Proof.
  induction s as [|c s IH]; simpl; [reflexivity|].
  destruct (py_isspace c) eqn:Hc; [exact IH|]. simpl. exact Hc.
Qed.

Lemma rstrip_ends (s : string) : ends_with_space (rstrip s) = false.
Proof.
  induction s as [|c s IH]; simpl; [reflexivity|].
  destruct (rstrip s) as [|d t].
  - destruct (py_isspace c) eqn:Hc; simpl; [reflexivity | exact Hc].
  - exact IH.
Qed.

Lemma rstrip_starts (s : string) :
  starts_with_space s = false -> starts_with_space (rstrip s) = false.
Proof.
  destruct s as [|c s]; simpl; [reflexivity|].
  intros Hc. destruct (rstrip s); [rewrite Hc|]; simpl; exact Hc.
Qed.

Lemma lstrip_suffix (s : string) : exists a, s = String.append a (lstrip s).
Proof.
  induction s as [|c s [a IH]]; simpl.
  - by exists EmptyString.
  - destruct (py_isspace c).
    + exists (String c a). change (String c s = String c (String.append a (lstrip s))).
      by f_equal.
    + by exists EmptyString.
Qed.

Lemma rstrip_prefix (s : string) : exists b, s = String.append (rstrip s) b.
Proof.
  induction s as [|c s [b IH]]; simpl.
  - by exists EmptyString.
  - destruct (rstrip s) as [|d t].
    + destruct (py_isspace c).
      * by exists (String c s).
      * exists b. cbv [String.append] in *. by f_equal.
    + exists b. cbv [String.append] in *. by f_equal.
Qed.

Lemma before_comma_prefix (s : string) :
  exists b, s = String.append (before_comma s) b.
Proof.
  induction s as [|c s [b IH]]; simpl.
  - by exists EmptyString.
  - destruct (Ascii.eqb c ","%char).
    + by exists (String c s).
    + exists b. cbv [String.append] in *. by f_equal.
Qed.

Lemma before_comma_no_comma (s : string) :
  ","%char ∉ String.list_ascii_of_string (before_comma s).
Proof.
  induction s as [|c s IH]; simpl.
  - apply not_elem_of_nil.
  - destruct (Ascii.eqb_spec c ","%char) as [->|Hc]; simpl.
    + apply not_elem_of_nil.
    + apply not_elem_of_cons. split; [congruence | exact IH].
Qed.

Lemma append_cons (x : ascii) (a b : string) :
  String.append (String x a) b = String x (String.append a b).
Proof. reflexivity. Qed.

Lemma append_nil (b : string) : String.append EmptyString b = b.
Proof. reflexivity. Qed.

Lemma list_ascii_of_string_app (a b : string) :
  String.list_ascii_of_string (String.append a b) =
  String.list_ascii_of_string a ++ String.list_ascii_of_string b.
Proof.
  induction a as [|c a IH]; [reflexivity|].
  rewrite append_cons. simpl. by rewrite IH.
Qed.

Lemma string_app_assoc (a b c : string) :
  String.append (String.append a b) c = String.append a (String.append b c).
Proof.
  induction a as [|x a IH]; [reflexivity|].
  rewrite !append_cons. by rewrite IH.
Qed.

(** What [strip] returns is a piece of its argument. *)
Lemma strip_piece (s : string) :
  exists a b, s = String.append a (String.append (strip s) b).
Proof.
  destruct (lstrip_suffix s) as [a Ha].
  destruct (rstrip_prefix (lstrip s)) as [b Hb].
  exists a, b. unfold strip. congruence.
Qed.

Lemma rstrip_empty_iff (s : string) : rstrip s = EmptyString <-> blank s = true.
Proof.
  induction s as [|c s IH]; simpl; [done|].
  rewrite andb_true_iff, <- IH.
  destruct (rstrip s); destruct (py_isspace c); split;
    (done || by intros []).
Qed.

Lemma blank_lstrip (s : string) : blank (lstrip s) = blank s.
Proof.
  induction s as [|c s IH]; simpl; [reflexivity|].
  destruct (py_isspace c) eqn:Hc; simpl; [exact IH | by rewrite Hc].
Qed.

Lemma strip_empty_iff (s : string) : strip s = EmptyString <-> blank s = true.
Proof. unfold strip. by rewrite rstrip_empty_iff, blank_lstrip. Qed.

(** X11: when the request has a non-empty [X-Forwarded-For] header, the
    address returned is the part of the header before its first comma,
    without the white space around it, whatever [X-Real-IP] and the
    remote address of the connection are. It is a piece of the header
    value, has no comma in it, and neither starts nor ends with white
    space. *)
Theorem forwarded_for_address (req : Request) (v : string) :
  headers_get req "X-Forwarded-For" = Some v ->
  v <> EmptyString ->
  exists ip,
    get_client_ip (Ok req) = Ok ip /\
    ip = strip (before_comma v) /\
    (exists a b, v = String.append a (String.append ip b)) /\
    (","%char ∉ String.list_ascii_of_string ip) /\
    starts_with_space ip = false /\
    ends_with_space ip = false.
Proof.
  intros Hv Hne. exists (strip (before_comma v)).
  split.
  { unfold get_client_ip. simpl. rewrite Hv. by destruct v. }
  split; [reflexivity|].
  destruct (strip_piece (before_comma v)) as (a & b & Hab).
  destruct (before_comma_prefix v) as [t Ht].
  split; [|split; [|split]].
  - exists a, (String.append b t).
    rewrite Ht at 1. rewrite Hab at 1.
    by rewrite !string_app_assoc.
  - intros Hin. apply (before_comma_no_comma v).
    rewrite Hab, !list_ascii_of_string_app, !elem_of_app. auto.
  - unfold strip. apply rstrip_starts, lstrip_starts.
  - unfold strip. apply rstrip_ends.
Qed.

Lemma forwarded_for_address_witness :
  exists ip,
    get_client_ip
      (Ok (MkRequest
             (fun h => if String.eqb h "X-Forwarded-For" then Some "  10.0.0.1 , 10.0.0.2"
                       else if String.eqb h "X-Real-IP" then Some "192.168.1.9"
                       else None)
             (Some "127.0.0.1"))) = Ok ip /\
    ip = "10.0.0.1".
Proof.
  destruct (forwarded_for_address
              (MkRequest
                 (fun h => if String.eqb h "X-Forwarded-For" then Some "  10.0.0.1 , 10.0.0.2"
                           else if String.eqb h "X-Real-IP" then Some "192.168.1.9"
                           else None)
                 (Some "127.0.0.1"))
              "  10.0.0.1 , 10.0.0.2" eq_refl ltac:(discriminate))
    as (ip & Hip & Heq & _).
  exists ip. split; [exact Hip | exact Heq].
Defined.

(** X12: inside a request the function always returns an address, and
    outside of one, where reaching [request] raises [RuntimeError], it
    returns ["N/A"]. The address is never the empty string, except in one
    case: a non-empty [X-Forwarded-For] header with nothing but white
    space before its first comma, which is returned as the empty string
    although [X-Real-IP] or the remote address may be known. *)
Theorem client_ip_empty_iff (req : Request) :
  (exists ip, get_client_ip (Ok req) = Ok ip) /\
  (forall msg, get_client_ip (Raise (RuntimeError msg)) = Ok "N/A") /\
  (get_client_ip (Ok req) = Ok EmptyString <->
   exists v, headers_get req "X-Forwarded-For" = Some v /\
             v <> EmptyString /\
             blank (before_comma v) = true).
Proof.
  unfold get_client_ip. simpl.
  split; [|split; [reflexivity|]].
  - destruct (truthy (headers_get req "X-Forwarded-For")); [eauto|].
    destruct (truthy (headers_get req "X-Real-IP")); eauto.
  - destruct (headers_get req "X-Forwarded-For") as [[|c v]|] eqn:Hf; simpl.
    + split; [|intros (v & [= <-] & Hne & _); done].
      destruct (headers_get req "X-Real-IP") as [[|c r]|]; simpl;
        destruct (remote_addr req) as [[|c' a]|]; simpl; discriminate.
    + split.
      * intros [= H]. exists (String c v).
        split; [reflexivity|]. split; [discriminate|].
        by apply strip_empty_iff.
      * intros (v' & [= <-] & _ & Hb). f_equal. by apply strip_empty_iff.
    + split; [|intros (v & [=] & _)].
      destruct (headers_get req "X-Real-IP") as [[|c r]|]; simpl;
        destruct (remote_addr req) as [[|c' a]|]; simpl; discriminate.
Qed.
